(** * Local SEO editorial planner: a shallow embedding of [main.py]

    The planner fetches search results, extracts page text, asks a language
    model for a summary and for posts, and assembles the rows of an editorial
    plan.  This development embeds the functions of [main.py] that decide the
    shape of that data and proves the properties the specification states
    about them.

    Python values are embedded as the inductive type [pyval]; a Python
    [str] is a list of Unicode code points; a Python exception is the
    [Raise] branch of [result]; the network, the language model and the two
    [st.cache_data] stores are threaded through a state-and-error monad.

    The library functions the code calls are embedded with it: [json.loads]
    as a decoder of JSON text, [re.split] as a backtracking matcher,
    [str.strip], [str.split] and [str.join] on lists of code points, and
    [st.cache_data] as a store of timed entries that hashes the arguments of
    a call before it looks them up.  The search API, the content API and the
    language model are functions of an abstract world, about which nothing
    is assumed.  The password gate is a function of the session state and of
    what the widgets return.

    Outside the model: the rendering of the page, the table and the
    spreadsheet built from the rows, the text of the two prompts (a prompt
    is given by its parameters), and the exhaustion of the interpreter's
    resources. *)

From Stdlib Require Import String Ascii List ZArith NArith Bool Lia.
From Stdlib Require Import Floats.SpecFloat.
Import ListNotations.

Set Implicit Arguments.
Set Warnings "-register-all".

(** ** Python strings *)

(** A [str] is a sequence of code points. *)
Definition char := N.
Definition str := list char.

(** [lit "abc"] is the [str] of an ASCII source literal. *)
Fixpoint lit (s : string) : str :=
  match s with
  | EmptyString => []
  | String a r => N_of_ascii a :: lit r
  end.

Definition ch (a : ascii) : char := N_of_ascii a.

(** [jlit "{'k': 1}"] is the [str] of an ASCII literal in which each single
    quote stands for a double quote: a way to write JSON text. *)
Definition jlit (s : string) : str :=
  map (fun c => if (c =? 39)%N then 34%N else c) (lit s).

Fixpoint str_eqb (a b : str) : bool :=
  match a, b with
  | [], [] => true
  | x :: a', y :: b' => N.eqb x y && str_eqb a' b'
  | _, _ => false
  end.

(** [s.startswith(p)] *)
Fixpoint startswith (s p : str) : bool :=
  match p, s with
  | [], _ => true
  | x :: p', y :: s' => N.eqb x y && startswith s' p'
  | _ :: _, [] => false
  end.

(** [p in s] for two strings: [p] occurs in [s] as a substring. *)
Fixpoint str_contains (s p : str) : bool :=
  startswith s p ||
  match s with
  | [] => false
  | _ :: s' => str_contains s' p
  end.

(** [Py_UNICODE_ISSPACE]: the code points [str.strip()], [str.isspace()] and
    the pattern [\s] of [re] (on [str] patterns) treat as whitespace. *)
Definition isspace (c : char) : bool :=
  (((9 <=? c) && (c <=? 13)) || ((28 <=? c) && (c <=? 32))
  || (c =? 133) || (c =? 160) || (c =? 5760)
  || ((8192 <=? c) && (c <=? 8202))
  || (c =? 8232) || (c =? 8233) || (c =? 8239) || (c =? 8287)
  || (c =? 12288))%N.

Fixpoint lstrip (s : str) : str :=
  match s with
  | c :: s' => if isspace c then lstrip s' else s
  | [] => []
  end.

Definition rstrip (s : str) : str := rev (lstrip (rev s)).

(** [s.strip()] *)
Definition strip (s : str) : str := rstrip (lstrip s).

(** [s.split("\n")]: the pieces between line feeds; never the empty list. *)
Fixpoint split_lines (s : str) : list str :=
  match s with
  | [] => [[]]
  | c :: s' =>
      if (c =? 10)%N then [] :: split_lines s'
      else match split_lines s' with
           | l :: ls => (c :: l) :: ls
           | [] => [[c]]
           end
  end.

(** [sep.join(l)] on a list of strings. *)
Fixpoint join (sep : str) (l : list str) : str :=
  match l with
  | [] => []
  | [x] => x
  | x :: l' => x ++ sep ++ join sep l'
  end.

(** [s[:n]] for a non-negative [n]. *)
Definition str_prefix (n : nat) (s : str) : str := firstn n s.

(** ** Exceptions *)

Inductive exn :=
| KeyError | IndexError | TypeError | AttributeError | ValueError
| JSONDecodeError
| UnicodeEncodeError (* raised by [str.encode()] on a lone surrogate *)
| RequestException   (* raised by [requests.post] itself *)
| OpenAIError        (* raised by the chat-completion call *)
| StopException.     (* raised by [st.stop()] *)

Inductive result (A : Type) :=
| Ok (a : A)
| Raise (e : exn).
Arguments Ok {A} a.
Arguments Raise {A} e.

Definition rbind {A B} (r : result A) (k : A -> result B) : result B :=
  match r with
  | Ok a => k a
  | Raise e => Raise e
  end.

(** [try: r except: h] with a bare [except]. *)
Definition try_except {A} (r : result A) (h : result A) : result A :=
  match r with
  | Ok a => Ok a
  | Raise _ => h
  end.

Fixpoint rmap {A B} (f : A -> result B) (l : list A) : result (list B) :=
  match l with
  | [] => Ok []
  | x :: l' =>
      rbind (f x) (fun y => rbind (rmap f l') (fun ys => Ok (y :: ys)))
  end.

(** ** Python values *)

(** The values [json.loads] builds, which are all the values the planner
    handles: [None], [bool], [int], [float] (IEEE binary64, as a
    [spec_float]), [str], [list] and [dict] with string keys.  A [dict] keeps
    its insertion order, which iteration observes. *)
Inductive pyval :=
| PNone
| PBool (b : bool)
| PInt (z : Z)
| PFloat (f : spec_float)
| PStr (s : str)
| PList (l : list pyval)
| PDict (d : list (str * pyval)).

Definition dict := list (str * pyval).

Fixpoint dict_get (k : str) (d : dict) : option pyval :=
  match d with
  | [] => None
  | (k', v) :: d' => if str_eqb k k' then Some v else dict_get k d'
  end.

(** [d[k] = v]: an existing key keeps its place and takes the new value. *)
Fixpoint dict_set (k : str) (v : pyval) (d : dict) : dict :=
  match d with
  | [] => [(k, v)]
  | (k', v') :: d' =>
      if str_eqb k k' then (k', v) :: d' else (k', v') :: dict_set k v d'
  end.

Definition dict_has (k : str) (d : dict) : bool :=
  match dict_get k d with Some _ => true | None => false end.

(** Truth value of an object, as [if x:] and [not x] test it. *)
Definition truthy (v : pyval) : bool :=
  match v with
  | PNone => false
  | PBool b => b
  | PInt z => negb (z =? 0)%Z
  | PFloat (S754_zero _) => false
  | PFloat _ => true
  | PStr s => match s with [] => false | _ => true end
  | PList l => match l with [] => false | _ => true end
  | PDict d => match d with [] => false | _ => true end
  end.

(** The float [f] has exactly the integer value [n]. *)
Definition float_eq_int (f : spec_float) (n : Z) : bool :=
  match f with
  | S754_zero _ => (n =? 0)%Z
  | S754_finite s m e =>
      let v := cond_Zopp s (Zpos m) in
      if (0 <=? e)%Z then (v * 2 ^ e =? n)%Z
      else (v =? n * 2 ^ (- e))%Z
  | _ => false
  end.

(** [v == n] for an [int] literal [n]. *)
Definition py_eq_int (v : pyval) (n : Z) : bool :=
  match v with
  | PInt z => (z =? n)%Z
  | PBool b => ((if b then 1 else 0) =? n)%Z
  | PFloat f => float_eq_int f n
  | _ => false
  end.

(** [v == s] for a [str] literal [s]. *)
Definition py_eq_str (v : pyval) (s : str) : bool :=
  match v with
  | PStr t => str_eqb t s
  | _ => false
  end.

Definition dict_get_or (k : str) (d : dict) (default : pyval) : pyval :=
  match dict_get k d with Some x => x | None => default end.

(** [v.get(k, default)]: only a [dict] has the method. *)
Definition py_get (v : pyval) (k : str) (default : pyval) : result pyval :=
  match v with
  | PDict d => Ok (dict_get_or k d default)
  | _ => Raise AttributeError
  end.

(** [v[k]] for a [str] key [k]. *)
Definition getitem_str (v : pyval) (k : str) : result pyval :=
  match v with
  | PDict d => match dict_get k d with Some x => Ok x | None => Raise KeyError end
  | _ => Raise TypeError
  end.

(** [v[0]] *)
Definition getitem_0 (v : pyval) : result pyval :=
  match v with
  | PList l => match l with x :: _ => Ok x | [] => Raise IndexError end
  | PStr s => match s with c :: _ => Ok (PStr [c]) | [] => Raise IndexError end
  | PDict _ => Raise KeyError
  | _ => Raise TypeError
  end.

(** [k in v] for a [str] key [k]. *)
Definition py_contains (k : str) (v : pyval) : result bool :=
  match v with
  | PDict d => Ok (dict_has k d)
  | PList l => Ok (existsb (fun x => py_eq_str x k) l)
  | PStr s => Ok (str_contains s k)
  | _ => Raise TypeError
  end.

(** The elements [for x in v] visits. *)
Definition py_iter (v : pyval) : result (list pyval) :=
  match v with
  | PList l => Ok l
  | PDict d => Ok (map (fun kv => PStr (fst kv)) d)
  | PStr s => Ok (map (fun c => PStr [c]) s)
  | _ => Raise TypeError
  end.

Definition isinstance_dict (v : pyval) : bool :=
  match v with PDict _ => true | _ => false end.

(** [text + v + " "] where [text] is a [str]: [v] has to be a [str] too. *)
Definition str_of (v : pyval) : result str :=
  match v with
  | PStr s => Ok s
  | _ => Raise TypeError
  end.

(** [p.strip()]: a method of [str] only. *)
Definition py_strip (v : pyval) : result str :=
  match v with
  | PStr s => Ok (strip s)
  | _ => Raise AttributeError
  end.

(** [sep.join(l)]: every element has to be a [str]. *)
Definition py_join (sep : str) (l : list pyval) : result str :=
  rbind (rmap str_of l) (fun ss => Ok (join sep ss)).

(** [l[:n]] with Python's reading of a negative bound. *)
Definition py_slice_to {A} (n : Z) (l : list A) : list A :=
  if (0 <=? n)%Z then firstn (Z.to_nat n) l
  else firstn (length l - Z.to_nat (- n)) l.

(** ** [json.loads]

    The decoder of CPython's [json] module with its default settings
    ([strict=True], no hooks): a scanner that cuts the text into tokens and a
    stack automaton that assembles the values.  Both read the text once, from
    left to right, so the decoder is total by construction.  Exhaustion of
    the interpreter (its recursion limit, its memory) is outside the model:
    the decoder nests values as deep as the text does. *)

Definition is_digit (c : char) : bool := ((48 <=? c) && (c <=? 57))%N.

(** The whitespace of JSON: space, tab, line feed, carriage return. *)
Definition is_json_ws (c : char) : bool :=
  ((c =? 32) || (c =? 9) || (c =? 10) || (c =? 13))%N.

Fixpoint span (p : char -> bool) (s : str) : str * str :=
  match s with
  | c :: s' =>
      if p c then let (a, b) := span p s' in (c :: a, b) else ([], s)
  | [] => ([], [])
  end.

Definition digits_value (ds : str) : Z :=
  fold_left (fun acc c => acc * 10 + (Z.of_N c - 48))%Z ds 0%Z.

(** The binary64 float nearest to [m * 10 ^ e10] (ties to even), with the
    sign [neg]: what [float()] makes of a decimal numeral. *)
Definition float_of_decimal (neg : bool) (m e10 : Z) : spec_float :=
  if (m =? 0)%Z then S754_zero neg
  else if (0 <=? e10)%Z then
    binary_normalize 53 1024 (cond_Zopp neg (m * 10 ^ e10)) 0 neg
  else
    let d := (10 ^ (- e10))%Z in
    let k := Z.max 0 (Zdigits2 d + 55 - Zdigits2 m) in
    let (q, r) := Z.div_eucl (Z.shiftl m k) d in
    binary_round_aux 53 1024 neg q (- k) (new_location d r).

Section Decoder.

(** [sys.get_int_max_str_digits()] of the running interpreter: an [int]
    numeral with more digits raises [ValueError].  [0] switches the limit
    off, and no numeral of at most 640 digits is ever checked. *)
Variable int_max_str_digits : nat.

(** A numeral at the head of [s]: an optional minus sign, an integer part
    (a single zero, or a non-zero digit followed by digits), an optional
    fraction (a dot and at least one digit) and an optional exponent ([e] or
    [E], an optional sign, at least one digit).  Gives its value and its
    length, or [None] when [s] starts with no numeral. *)
Definition scan_number (s : str) : option (result pyval * nat) :=
  let (neg, s1) :=
    match s with
    | c :: r => if (c =? 45)%N then (true, r) else (false, s)
    | [] => (false, s)
    end in
  let int_part :=
    match s1 with
    | c :: r =>
        if (c =? 48)%N then Some ([c], r)
        else if is_digit c then Some (span is_digit s1)
        else None
    | [] => None
    end in
  match int_part with
  | None => None
  | Some (ds, r1) =>
      let (fs, r2) :=
        match r1 with
        | c :: r =>
            if (c =? 46)%N then
              match span is_digit r with
              | ([], _) => ([], r1)
              | (fs, r') => (fs, r')
              end
            else ([], r1)
        | [] => ([], r1)
        end in
      let frac_len := match fs with [] => 0 | _ => S (length fs) end in
      let exponent :=
        match r2 with
        | c :: r =>
            if ((c =? 101) || (c =? 69))%N then
              let '(eneg, sign_len, r') :=
                match r with
                | c' :: r'' =>
                    if (c' =? 43)%N then (false, 1, r'')
                    else if (c' =? 45)%N then (true, 1, r'')
                    else (false, 0, r)
                | [] => (false, 0, r)
                end in
              match span is_digit r' with
              | ([], _) => None
              | (es, _) =>
                  Some (cond_Zopp eneg (digits_value es),
                        S (sign_len + length es))
              end
            else None
        | [] => None
        end in
      let n0 := (if neg then 1 else 0) + length ds + frac_len in
      match fs, exponent with
      | [], None =>
          if Nat.ltb 640 (length ds)
             && negb (Nat.eqb int_max_str_digits 0)
             && Nat.ltb int_max_str_digits (length ds)
          then Some (Raise ValueError, n0)
          else Some (Ok (PInt (cond_Zopp neg (digits_value ds))), n0)
      | _, None =>
          Some (Ok (PFloat (float_of_decimal neg (digits_value (ds ++ fs))
                              (- Z.of_nat (length fs)))), n0)
      | _, Some (e, elen) =>
          Some (Ok (PFloat (float_of_decimal neg (digits_value (ds ++ fs))
                              (e - Z.of_nat (length fs)))), n0 + elen)
      end
  end.

Definition hex_value (c : char) : option N :=
  if is_digit c then Some (c - 48)%N
  else if ((97 <=? c) && (c <=? 102))%N then Some (c - 87)%N
  else if ((65 <=? c) && (c <=? 70))%N then Some (c - 55)%N
  else None.

Definition hex4 (a b c d : char) : option N :=
  match hex_value a, hex_value b, hex_value c, hex_value d with
  | Some x, Some y, Some z, Some w => Some (((x * 16 + y) * 16 + z) * 16 + w)%N
  | _, _, _, _ => None
  end.

Definition simple_escape (c : char) : option char :=
  if (c =? 34)%N then Some 34%N          (* quote *)
  else if (c =? 92)%N then Some 92%N     (* backslash *)
  else if (c =? 47)%N then Some 47%N     (* slash *)
  else if (c =? 98)%N then Some 8%N      (* b: backspace *)
  else if (c =? 102)%N then Some 12%N    (* f: form feed *)
  else if (c =? 110)%N then Some 10%N    (* n: line feed *)
  else if (c =? 114)%N then Some 13%N    (* r: carriage return *)
  else if (c =? 116)%N then Some 9%N     (* t: tab *)
  else None.

(** The body of a string literal, after its opening quote: the code units it
    denotes, each marked when it was written as a [\uXXXX] escape, and the
    number of characters read, the closing quote included.  [None] when the
    literal is unterminated, holds a raw control character or a bad escape. *)
Fixpoint scan_units (s : str) : option (list (char * bool) * nat) :=
  match s with
  | [] => None
  | c :: s' =>
      if (c =? 34)%N then Some ([], 1)
      else if (c =? 92)%N then
        match s' with
        | e :: s'' =>
            if (e =? 117)%N then
              match s'' with
              | h1 :: h2 :: h3 :: h4 :: s3 =>
                  match hex4 h1 h2 h3 h4, scan_units s3 with
                  | Some v, Some (us, n) => Some ((v, true) :: us, 6 + n)
                  | _, _ => None
                  end
              | _ => None
              end
            else
              match simple_escape e, scan_units s'' with
              | Some v, Some (us, n) => Some ((v, false) :: us, 2 + n)
              | _, _ => None
              end
        | [] => None
        end
      else if (c <? 32)%N then None
      else
        match scan_units s' with
        | Some (us, n) => Some ((c, false) :: us, 1 + n)
        | None => None
        end
  end.

(** Two consecutive [\u] escapes that form a surrogate pair denote one code
    point; any other surrogate stays as it is. *)
Fixpoint join_surrogates (l : list (char * bool)) : str :=
  match l with
  | [] => []
  | (c, esc) :: tl =>
      match tl with
      | (c2, true) :: tl' =>
          if esc && (55296 <=? c)%N && (c <=? 56319)%N
             && (56320 <=? c2)%N && (c2 <=? 57343)%N
          then (65536 + (c - 55296) * 1024 + (c2 - 56320))%N
               :: join_surrogates tl'
          else c :: join_surrogates tl
      | _ => c :: join_surrogates tl
      end
  end.

Inductive token :=
| TLBrace | TRBrace | TLBracket | TRBracket | TColon | TComma
| TStr (s : str)
| TAtom (v : pyval)
| TError (e : exn).

(** The token at the head of a non-empty [s] and its length. *)
Definition scan_token (s : str) : token * nat :=
  match s with
  | [] => (TError JSONDecodeError, 1)
  | c :: r =>
      if (c =? 123)%N then (TLBrace, 1)
      else if (c =? 125)%N then (TRBrace, 1)
      else if (c =? 91)%N then (TLBracket, 1)
      else if (c =? 93)%N then (TRBracket, 1)
      else if (c =? 58)%N then (TColon, 1)
      else if (c =? 44)%N then (TComma, 1)
      else if (c =? 34)%N then
        match scan_units r with
        | Some (us, n) => (TStr (join_surrogates us), S n)
        | None => (TError JSONDecodeError, 1)
        end
      else if startswith s (lit "null") then (TAtom PNone, 4)
      else if startswith s (lit "true") then (TAtom (PBool true), 4)
      else if startswith s (lit "false") then (TAtom (PBool false), 5)
      else if startswith s (lit "NaN") then (TAtom (PFloat S754_nan), 3)
      else if startswith s (lit "Infinity") then
        (TAtom (PFloat (S754_infinity false)), 8)
      else if startswith s (lit "-Infinity") then
        (TAtom (PFloat (S754_infinity true)), 9)
      else
        match scan_number s with
        | Some (Ok v, n) => (TAtom v, n)
        | Some (Raise e, n) => (TError e, n)
        | None => (TError JSONDecodeError, 1)
        end
  end.

(** The tokens of [s]; [skip] characters at its head belong to the token
    before. *)
Fixpoint tokens (skip : nat) (s : str) : list token :=
  match s with
  | [] => []
  | c :: s' =>
      match skip with
      | S k => tokens k s'
      | O =>
          if is_json_ws c then tokens 0 s'
          else let (t, n) := scan_token s in t :: tokens (pred n) s'
      end
  end.

(** An open container: a list with its elements so far, last one first, or a
    dict with its entries so far and the key that awaits its value. *)
Inductive frame :=
| FList (acc : list pyval)
| FDict (d : dict) (key : option str).

Inductive mode :=
| WantValue | WantValueOrClose | WantKey | WantKeyOrClose
| WantColon | WantSep
| Done (v : pyval).

Definition pstate := (list frame * mode)%type.

(** A finished value goes to the container on top of the stack. *)
Definition put (v : pyval) (stack : list frame) : result pstate :=
  match stack with
  | [] => Ok ([], Done v)
  | FList acc :: st => Ok (FList (v :: acc) :: st, WantSep)
  | FDict d (Some k) :: st => Ok (FDict (dict_set k v d) None :: st, WantSep)
  | FDict _ None :: _ => Raise JSONDecodeError
  end.

Definition push (f : frame) (m : mode) (stack : list frame) : result pstate :=
  Ok (f :: stack, m).

Definition close_list (stack : list frame) : result pstate :=
  match stack with
  | FList acc :: st => put (PList (rev acc)) st
  | _ => Raise JSONDecodeError
  end.

Definition close_dict (stack : list frame) : result pstate :=
  match stack with
  | FDict d None :: st => put (PDict d) st
  | _ => Raise JSONDecodeError
  end.

Definition step (ps : pstate) (t : token) : result pstate :=
  let (stack, m) := ps in
  match m, t with
  | (WantValue | WantValueOrClose), TError e => Raise e
  | (WantValue | WantValueOrClose), TAtom v => put v stack
  | (WantValue | WantValueOrClose), TStr s => put (PStr s) stack
  | (WantValue | WantValueOrClose), TLBracket =>
      push (FList []) WantValueOrClose stack
  | (WantValue | WantValueOrClose), TLBrace =>
      push (FDict [] None) WantKeyOrClose stack
  | WantValueOrClose, TRBracket => close_list stack
  | (WantKey | WantKeyOrClose), TStr k =>
      match stack with
      | FDict d None :: st => Ok (FDict d (Some k) :: st, WantColon)
      | _ => Raise JSONDecodeError
      end
  | WantKeyOrClose, TRBrace => close_dict stack
  | WantColon, TColon => Ok (stack, WantValue)
  | WantSep, TComma =>
      match stack with
      | FList _ :: _ => Ok (stack, WantValue)
      | FDict _ _ :: _ => Ok (stack, WantKey)
      | [] => Raise JSONDecodeError
      end
  | WantSep, TRBracket => close_list stack
  | WantSep, TRBrace => close_dict stack
  | _, _ => Raise JSONDecodeError
  end.

Fixpoint run (ps : pstate) (ts : list token) : result pstate :=
  match ts with
  | [] => Ok ps
  | t :: ts' => rbind (step ps t) (fun ps' => run ps' ts')
  end.

(** [json.loads(s)] for a [str] [s]. *)
Definition json_loads (s : str) : result pyval :=
  rbind (run ([], WantValue) (tokens 0 s)) (fun ps =>
    match snd ps with
    | Done v => Ok v
    | _ => Raise JSONDecodeError
    end).

End Decoder.

(** ** [re.split]

    The pattern of the fallback parser is a sequence of character classes,
    each taken once, any number of times or at least once.  [match_here] is
    the backtracking matcher of [re] on such sequences: a repetition takes as
    many characters as it can and gives them back one at a time while the
    rest of the pattern fails. *)

Inductive quant := One | Star | Plus.

Definition regex := list ((char -> bool) * quant).

(** A greedy repetition of the class [cls] followed by [k], the matcher of
    the rest of the pattern. *)
Fixpoint star (cls : char -> bool) (k : str -> option nat) (s : str)
  : option nat :=
  match s with
  | c :: s' =>
      if cls c then
        match star cls k s' with
        | Some n => Some (S n)
        | None => k s
        end
      else k s
  | [] => k s
  end.

(** The length of the match of [re] at the head of [s], if there is one. *)
Fixpoint match_here (re : regex) (s : str) {struct re} : option nat :=
  match re with
  | [] => Some 0
  | (cls, q) :: re' =>
      match q with
      | Star => star cls (match_here re') s
      | One =>
          match s with
          | c :: s' => if cls c then option_map S (match_here re' s') else None
          | [] => None
          end
      | Plus =>
          match s with
          | c :: s' =>
              if cls c then option_map S (star cls (match_here re') s')
              else None
          | [] => None
          end
      end
  end.

(** [re.split(re, s)] for a pattern that matches no empty string: the pieces
    of [s] between the successive leftmost matches.  [piece] holds the
    current piece, last character first; [skip] characters at the head of
    [s] belong to the match before. *)
Fixpoint re_split_from (re : regex) (skip : nat) (piece : str) (s : str)
  : list str :=
  match s with
  | [] => [rev piece]
  | c :: s' =>
      match skip with
      | S k => re_split_from re k piece s'
      | O =>
          match match_here re s with
          | Some (S n) => rev piece :: re_split_from re n [] s'
          | _ => re_split_from re 0 (c :: piece) s'
          end
      end
  end.

Definition re_split (re : regex) (s : str) : list str :=
  re_split_from re 0 [] s.

Definition is_char (a : ascii) : char -> bool := fun c => (c =? ch a)%N.

(** The strings a pattern denotes. *)
Inductive in_lang : regex -> str -> Prop :=
| lang_nil : in_lang [] []
| lang_one cls re c m :
    cls c = true -> in_lang re m -> in_lang ((cls, One) :: re) (c :: m)
| lang_star cls re cs m :
    forallb cls cs = true -> in_lang re m ->
    in_lang ((cls, Star) :: re) (cs ++ m)
| lang_plus cls re c cs m :
    cls c = true -> forallb cls cs = true -> in_lang re m ->
    in_lang ((cls, Plus) :: re) (c :: cs ++ m).

(** The length of a non-empty match of [re] at the head of [s]. *)
Definition match_len (re : regex) (s : str) : option nat :=
  match match_here re s with
  | Some (S n) => Some (S n)
  | _ => None
  end.

(** [l] is [s] cut at its successive leftmost non-empty matches of [re]:
    either no match starts anywhere in [s], which is then the only piece, or
    [s] is a piece [p] in which no match starts, the match [m] and a rest
    that is cut the same way. *)
Inductive split_at (re : regex) : str -> list str -> Prop :=
| split_last s :
    (forall i, i < length s -> match_len re (skipn i s) = None) ->
    split_at re s [s]
| split_cut p m rest l :
    (forall i, i < length p ->
       match_len re (skipn i (p ++ m ++ rest)) = None) ->
    match_len re (m ++ rest) = Some (length m) ->
    split_at re rest l ->
    split_at re (p ++ m ++ rest) (p :: l).

(** ** The outside world *)

(** An HTTP response: its status and its body as decoded text. *)
Record response := { status_code : Z; text : str }.

(** The two prompts sent to the language model, by their parameters: the
    summary prompt (model [gpt-4.1], 1200 tokens, temperature 0.5) and the
    posts prompt (model [gpt-4.1], 2000 tokens, temperature 0.7). *)
Inductive prompt :=
| SummaryPrompt (topic : str) (sources_text : str)
| PostsPrompt (business sector topic brief : str) (summary : pyval)
              (n_posts : Z).

(** One row of the editorial plan: the dict appended to [rows], with its keys
    [Data pubblicazione], [Argomento], [Fonte], [Contenuto post] and
    [Immagine]. *)
Record row := {
  data_pubblicazione : str;
  argomento : str;
  fonte : str;
  contenuto_post : str;
  immagine : str
}.

(** The form of the page. *)
Record form := {
  business : str;
  sector : str;
  website : str;
  topic_input : str;
  n_posts : Z;
  brief : str;
  source_mode : str
}.

(** Structural equality of values, as the cache compares its keys. *)
Definition float_eqb (a b : spec_float) : bool :=
  match a, b with
  | S754_zero s, S754_zero s' => Bool.eqb s s'
  | S754_infinity s, S754_infinity s' => Bool.eqb s s'
  | S754_nan, S754_nan => true
  | S754_finite s m e, S754_finite s' m' e' =>
      Bool.eqb s s' && Pos.eqb m m' && Z.eqb e e'
  | _, _ => false
  end.

Fixpoint pyval_eqb (a b : pyval) {struct a} : bool :=
  match a, b with
  | PNone, PNone => true
  | PBool x, PBool y => Bool.eqb x y
  | PInt x, PInt y => Z.eqb x y
  | PFloat x, PFloat y => float_eqb x y
  | PStr x, PStr y => str_eqb x y
  | PList x, PList y =>
      (fix go (x y : list pyval) {struct x} : bool :=
         match x, y with
         | [], [] => true
         | v :: x', w :: y' => pyval_eqb v w && go x' y'
         | _, _ => false
         end) x y
  | PDict x, PDict y =>
      (fix go (x y : dict) {struct x} : bool :=
         match x, y with
         | [], [] => true
         | (k, v) :: x', (k', w) :: y' =>
             str_eqb k k' && pyval_eqb v w && go x' y'
         | _, _ => false
         end) x y
  | _, _ => false
  end.

(** [organic_only rs] is [[r for r in rs if r["type"] == "organic"]]. *)
Fixpoint organic_only (rs : list pyval) : result (list pyval) :=
  match rs with
  | [] => Ok []
  | r :: rs' =>
      rbind (getitem_str r (lit "type")) (fun t =>
      rbind (organic_only rs') (fun keep =>
      Ok (if py_eq_str t (lit "organic") then r :: keep else keep)))
  end.

(** ** The planner *)

Section Planner.

Set Default Proof Using "Type".

(** The interpreter: the digit limit of [int], the decimal digits of the
    Unicode database beyond ASCII, and [base64.b64encode] on the
    credentials. *)
Variable int_max_str_digits : nat.
Variable unicode_decimal : char -> bool.
Variable b64encode : str -> str.

(** [Py_UNICODE_ISDECIMAL], the class [\d] of [re] on [str] patterns: in
    ASCII the ten digits, beyond ASCII what the Unicode database says. *)
Definition isdecimal (c : char) : bool :=
  if (c <? 128)%N then is_digit c else unicode_decimal c.

(** The secrets of the deployment. *)
Variable DATAFORSEO_LOGIN : str.
Variable DATAFORSEO_PASSWORD : str.

(** The world outside the process.  [requests_post url authorization payload]
    is [requests.post]: it takes the payload before [json.dumps] and gives a
    response or raises.  [chat_create prompt] is the chat-completion call
    followed by [.choices[0].message.content]: a [str] or [None].  [clock]
    reads the time in seconds. *)
Variable World : Type.
Variable requests_post :
  str -> str -> pyval -> World -> result response * World.
Variable chat_create : prompt -> World -> result (option str) * World.
Variable clock : World -> Z.

(** *** State: the world and the two [st.cache_data] stores *)

Definition serp_key := (str * str * Z)%type.
Definition content_key := (pyval * str)%type.

Record store := {
  world : World;
  serp_cache : list (serp_key * (list pyval * Z));
  content_cache : list (content_key * (pyval * Z))
}.

Definition M (A : Type) := store -> result A * store.

Definition ret {A} (a : A) : M A := fun st => (Ok a, st).

Definition bind {A B} (m : M A) (k : A -> M B) : M B :=
  fun st =>
    match m st with
    | (Ok a, st') => k a st'
    | (Raise e, st') => (Raise e, st')
    end.

Definition lift {A} (r : result A) : M A := fun st => (r, st).

Definition io {A} (f : World -> result A * World) : M A :=
  fun st =>
    let (r, w) := f (world st) in
    (r, {| world := w;
           serp_cache := serp_cache st;
           content_cache := content_cache st |}).

Notation "x <- m ;; k" := (bind m (fun x => k))
  (at level 61, m at next level, right associativity).

Fixpoint foldM {A B} (f : A -> B -> M A) (a : A) (l : list B) : M A :=
  match l with
  | [] => ret a
  | x :: l' => a' <- f a x ;; foldM f a' l'
  end.

(** *** [st.cache_data(ttl=...)] *)

(** Before it looks a call up, [st.cache_data] hashes the arguments.  A
    [str] is hashed through [str.encode()], which encodes to UTF-8 and raises
    [UnicodeEncodeError] on a lone surrogate; a list and a dict are hashed
    element by element, a dict through its keys and values; [None], a
    [bool], an [int] and a [float] always hash. *)
Definition is_surrogate (c : char) : bool :=
  ((55296 <=? c) && (c <=? 57343))%N.

Definition encodable (s : str) : bool :=
  forallb (fun c => negb (is_surrogate c)) s.

Fixpoint hashable (v : pyval) : bool :=
  match v with
  | PStr s => encodable s
  | PList l =>
      (fix go (l : list pyval) : bool :=
         match l with
         | [] => true
         | x :: l' => hashable x && go l'
         end) l
  | PDict d =>
      (fix go (d : dict) : bool :=
         match d with
         | [] => true
         | (k, x) :: d' => encodable k && hashable x && go d'
         end) d
  | _ => true
  end.

Fixpoint cache_lookup {K V} (eqb : K -> K -> bool) (k : K)
  (c : list (K * (V * Z))) : option (V * Z) :=
  match c with
  | [] => None
  | (k', e) :: c' => if eqb k k' then Some e else cache_lookup eqb k c'
  end.

Fixpoint cache_put {K V} (eqb : K -> K -> bool) (k : K) (e : V * Z)
  (c : list (K * (V * Z))) : list (K * (V * Z)) :=
  match c with
  | [] => [(k, e)]
  | (k', e') :: c' =>
      if eqb k k' then (k', e) :: c' else (k', e') :: cache_put eqb k e c'
  end.

(** The value stored under [k] when its entry is younger than [ttl]. *)
Definition cache_hit {K V} (eqb : K -> K -> bool) (ttl now : Z) (k : K)
  (c : list (K * (V * Z))) : option V :=
  match cache_lookup eqb k c with
  | Some (v, t) => if (now <? t + ttl)%Z then Some v else None
  | None => None
  end.

(** A call of a cached function.  The arguments are hashed first, and a call
    whose arguments do not hash raises before anything else happens.  Then an
    entry younger than [ttl] is returned without running the body; otherwise
    the body runs, and the value it returns is stored with the time.  An
    exception is not stored. *)
Definition cache_data {K V} (hashes : K -> bool) (eqb : K -> K -> bool)
  (get : store -> list (K * (V * Z)))
  (set : list (K * (V * Z)) -> store -> store)
  (ttl : Z) (body : K -> M V) (k : K) : M V :=
  fun st =>
    if hashes k then
      match cache_hit eqb ttl (clock (world st)) k (get st) with
      | Some v => (Ok v, st)
      | None =>
          match body k st with
          | (Ok v, st') =>
              (Ok v,
               set (cache_put eqb k (v, clock (world st')) (get st')) st')
          | (Raise e, st') => (Raise e, st')
          end
      end
    else (Raise UnicodeEncodeError, st).

(** The arguments of [cached_serp] hash: the keyword and the credentials
    encode; the depth is an [int]. *)
Definition serp_key_hashes (k : serp_key) : bool :=
  let '(keyword, encoded_credentials, _) := k in
  encodable keyword && encodable encoded_credentials.

(** The arguments of [cached_content_full] hash. *)
Definition content_key_hashes (k : content_key) : bool :=
  hashable (fst k) && encodable (snd k).

Definition serp_key_eqb (a b : serp_key) : bool :=
  let '(k, c, d) := a in
  let '(k', c', d') := b in
  str_eqb k k' && str_eqb c c' && Z.eqb d d'.

Definition content_key_eqb (a b : content_key) : bool :=
  pyval_eqb (fst a) (fst b) && str_eqb (snd a) (snd b).

Definition set_serp_cache c (st : store) : store :=
  {| world := world st; serp_cache := c; content_cache := content_cache st |}.

Definition set_content_cache c (st : store) : store :=
  {| world := world st; serp_cache := serp_cache st; content_cache := c |}.

(** *** [cached_serp] *)

Definition serp_url : str :=
  lit "https://api.dataforseo.com/v3/serp/google/organic/live/advanced".

Definition serp_payload (keyword : str) (depth : Z) : pyval :=
  PList [PDict [(lit "keyword", PStr keyword);
                (lit "location_code", PInt 2380);
                (lit "language_code", PStr (lit "it"));
                (lit "device", PStr (lit "desktop"));
                (lit "os", PStr (lit "windows"));
                (lit "depth", PInt depth)]].

(** What [cached_serp] makes of the response. *)
Definition serp_of_response (r : response) (depth : Z) : result (list pyval) :=
  if (status_code r =? 200)%Z then
    rbind (json_loads int_max_str_digits (text r)) (fun data =>
    rbind (py_get data (lit "status_code") PNone) (fun sc =>
    if py_eq_int sc 20000 then
      rbind (getitem_str data (lit "tasks")) (fun tasks =>
      rbind (getitem_0 tasks) (fun task =>
      rbind (getitem_str task (lit "result")) (fun res =>
      rbind (getitem_0 res) (fun res0 =>
      rbind (getitem_str res0 (lit "items")) (fun results =>
      rbind (py_iter results) (fun rs =>
      rbind (organic_only rs) (fun organic =>
      Ok (py_slice_to depth organic))))))))
    else Ok []))
  else Ok [].

(** The body of [cached_serp]. *)
Definition cached_serp_body (k : serp_key) : M (list pyval) :=
  let '(keyword, encoded_credentials, depth) := k in
  r <- io (requests_post serp_url (lit "Basic " ++ encoded_credentials)
             (serp_payload keyword depth)) ;;
  lift (serp_of_response r depth).

(** [cached_serp(keyword, encoded_credentials, depth)] *)
Definition cached_serp (keyword encoded_credentials : str) (depth : Z)
  : M (list pyval) :=
  cache_data serp_key_hashes serp_key_eqb serp_cache set_serp_cache 3600
    cached_serp_body (keyword, encoded_credentials, depth).

(** *** [cached_content_full] *)

Definition content_url : str :=
  lit "https://api.dataforseo.com/v3/on_page/content_parsing/live".

Definition content_payload (url : pyval) : pyval :=
  PList [PDict [(lit "url", url);
                (lit "enable_javascript", PBool true);
                (lit "enable_browser_rendering", PBool true)]].

Definition content_of_response (r : response) : result pyval :=
  if (status_code r =? 200)%Z then
    json_loads int_max_str_digits (text r)
  else Ok PNone.

Definition cached_content_full_body (k : content_key) : M pyval :=
  let (url, encoded_credentials) := k in
  r <- io (requests_post content_url (lit "Basic " ++ encoded_credentials)
             (content_payload url)) ;;
  lift (content_of_response r).

(** [cached_content_full(url, encoded_credentials)] *)
Definition cached_content_full (url : pyval) (encoded_credentials : str)
  : M pyval :=
  cache_data content_key_hashes content_key_eqb content_cache
    set_content_cache 3600 cached_content_full_body
    (url, encoded_credentials).

(** *** [LocalSEOPlanner] *)

(** The object: its encoded credentials (the client of the language model is
    the world's [chat_create]). *)
Record planner := { encoded_credentials : str }.

(** [LocalSEOPlanner(login, password)] *)
Definition LocalSEOPlanner (login password : str) : planner :=
  {| encoded_credentials := b64encode (login ++ lit ":" ++ password) |}.

(** [get_serp_results] *)
Definition get_serp_results (self : planner) (keyword : str)
  : M (list pyval) :=
  cached_serp keyword (encoded_credentials self) 5.

(** The text of one [primary_content] entry, added to [text] when the entry
    is a dict with a true [text]. *)
Definition add_content (text : str) (c : pyval) : result str :=
  if isinstance_dict c then
    rbind (py_get c (lit "text") PNone) (fun t =>
    if truthy t then
      rbind (getitem_str c (lit "text")) (fun t' =>
      rbind (str_of t') (fun s => Ok (text ++ s ++ lit " ")))
    else Ok text)
  else Ok text.

Fixpoint add_contents (text : str) (cs : list pyval) : result str :=
  match cs with
  | [] => Ok text
  | c :: cs' => rbind (add_content text c) (fun text' => add_contents text' cs')
  end.

(** The two nested loops over [main_topic] and [primary_content]. *)
Fixpoint add_topics (text : str) (topics : list pyval) : result str :=
  match topics with
  | [] => Ok text
  | topic :: topics' =>
      rbind (py_get topic (lit "primary_content") (PList [])) (fun pc =>
      rbind (py_iter pc) (fun cs =>
      rbind (add_contents text cs) (fun text' =>
      add_topics text' topics')))
  end.

(** [x and (k in x[0])], the guard of both nested tests. *)
Definition has_first_with (x : pyval) (k : str) : result bool :=
  if truthy x then rbind (getitem_0 x) (py_contains k) else Ok false.

(** What [extract_text] makes of the parsed response [data]. *)
Definition text_of_data (data : pyval) : result str :=
  if negb (truthy data) then Ok []
  else
    rbind (py_get data (lit "status_code") PNone) (fun sc =>
    if negb (py_eq_int sc 20000) then Ok []
    else
      rbind (py_get data (lit "result") (PList [])) (fun res =>
      rbind (has_first_with res (lit "items")) (fun has_items =>
      if has_items then
        rbind (getitem_0 res) (fun res0 =>
        rbind (getitem_str res0 (lit "items")) (fun items =>
        rbind (has_first_with items (lit "page_content")) (fun has_page =>
        if has_page then
          rbind (getitem_0 items) (fun item0 =>
          rbind (getitem_str item0 (lit "page_content")) (fun page =>
          rbind (py_get page (lit "main_topic") (PList [])) (fun mt =>
          rbind (py_iter mt) (fun topics =>
          rbind (add_topics [] topics) (fun text =>
          Ok (str_prefix 4000 text))))))
        else Ok [])))
      else Ok []))).

(** [extract_text] *)
Definition extract_text (self : planner) (url : pyval) : M str :=
  data <- cached_content_full url (encoded_credentials self) ;;
  lift (text_of_data data).

Definition content_value (c : option str) : pyval :=
  match c with
  | Some s => PStr s
  | None => PNone
  end.

(** [summarize_sources] *)
Definition summarize_sources (self : planner) (topic sources_text : str)
  : M pyval :=
  c <- io (chat_create (SummaryPrompt topic sources_text)) ;;
  ret (content_value c).

(** The pattern [POST\s*\d+[:\-]]. *)
Definition post_re : regex :=
  [(is_char "P", One); (is_char "O", One); (is_char "S", One);
   (is_char "T", One); (isspace, Star); (isdecimal, Plus);
   (fun c => is_char ":" c || is_char "-" c, One)].

(** [json.loads] and [re.split] take a [str]; [None] raises [TypeError]. *)
Definition py_json_loads (content : pyval) : result pyval :=
  match content with
  | PStr s => json_loads int_max_str_digits s
  | _ => Raise TypeError
  end.

Definition py_re_split (re : regex) (content : pyval) : result (list str) :=
  match content with
  | PStr s => Ok (re_split re s)
  | _ => Raise TypeError
  end.

Definition nonempty (s : str) : bool :=
  match s with [] => false | _ => true end.

(** [[p.strip() for p in parts if p.strip()]] *)
Definition stripped_parts (parts : list str) : list str :=
  map strip (filter (fun p => nonempty (strip p)) parts).

(** The [try] and [except] of [generate_posts] on the model's output. *)
Definition posts_of_content (content : pyval) : result pyval :=
  try_except
    (rbind (py_json_loads content) (fun data =>
     py_get data (lit "posts") (PList [])))
    (rbind (py_re_split post_re content) (fun parts =>
     Ok (PList (map PStr (stripped_parts parts))))).

(** [generate_posts] *)
Definition generate_posts (self : planner)
  (business sector topic brief : str) (summary : pyval) (n_posts : Z)
  : M pyval :=
  c <- io (chat_create
             (PostsPrompt business sector topic brief summary n_posts)) ;;
  lift (posts_of_content (content_value c)).

(** *** The script under [if submit:] *)

(** [[t.strip() for t in topic_input.split("\n") if t.strip()]] *)
Definition parse_topics (topic_input : str) : list str :=
  map strip (filter (fun t => nonempty (strip t)) (split_lines topic_input)).

Definition build_query (f : form) (topic : str) : str :=
  if startswith (source_mode f) (lit "Dal sito")
  then topic ++ lit " site:" ++ website f
  else topic.

(** One turn of [for r in serp]. *)
Definition add_source (optimizer : planner) (acc : str * list pyval)
  (r : pyval) : M (str * list pyval) :=
  let (sources_text, sources_urls) := acc in
  url <- lift (getitem_str r (lit "url")) ;;
  let sources_urls := sources_urls ++ [url] in
  url' <- lift (getitem_str r (lit "url")) ;;
  t <- extract_text optimizer url' ;;
  ret (sources_text ++ t ++ lit (String "010" ""), sources_urls).

(** One turn of [for p in posts]. *)
Definition add_row (topic : str) (sources_urls : list pyval)
  (rows : list row) (p : pyval) : M (list row) :=
  f <- lift (py_join (lit ", ") sources_urls) ;;
  c <- lift (py_strip p) ;;
  ret (rows ++ [{| data_pubblicazione := [];
                   argomento := topic;
                   fonte := f;
                   contenuto_post := c;
                   immagine := [] |}]).

(** One turn of [for topic in topics]. *)
Definition process_topic (optimizer : planner) (f : form)
  (rows : list row) (topic : str) : M (list row) :=
  serp <- get_serp_results optimizer (build_query f topic) ;;
  acc <- foldM (add_source optimizer) ([], []) serp ;;
  let (sources_text, sources_urls) := (acc : str * list pyval) in
  summary <- summarize_sources optimizer topic sources_text ;;
  posts <- generate_posts optimizer (business f) (sector f) topic (brief f)
             summary (n_posts f) ;;
  ps <- lift (py_iter posts) ;;
  foldM (add_row topic sources_urls) rows ps.

(** The rows handed to [pd.DataFrame]. *)
Definition plan_rows (f : form) : M (list row) :=
  let optimizer := LocalSEOPlanner DATAFORSEO_LOGIN DATAFORSEO_PASSWORD in
  let topics := parse_topics (topic_input f) in
  match topics with
  | [] => lift (Raise StopException)
  | _ => foldM (process_topic optimizer f) [] topics
  end.

(** *** Predicates of the specification *)

(** The store a process starts with: both caches empty. *)
Definition init_store (w : World) : store :=
  {| world := w; serp_cache := []; content_cache := [] |}.

(** [data.get("status_code") == 20000] on a dict. *)
Definition api_status_ok (d : dict) : bool :=
  py_eq_int (dict_get_or (lit "status_code") d PNone) 20000.

(** [r["type"] == "organic"] holds of [r]. *)
Definition is_organic (r : pyval) : bool :=
  match getitem_str r (lit "type") with
  | Ok t => py_eq_str t (lit "organic")
  | Raise _ => false
  end.

(** The response carries the items [rs] under
    [tasks[0].result[0].items]. *)
Definition response_items (r : response) (rs : list pyval) : Prop :=
  exists data tasks task res res0 results,
    json_loads int_max_str_digits (text r) = Ok data
    /\ getitem_str data (lit "tasks") = Ok tasks
    /\ getitem_0 tasks = Ok task
    /\ getitem_str task (lit "result") = Ok res
    /\ getitem_0 res = Ok res0
    /\ getitem_str res0 (lit "items") = Ok results
    /\ py_iter results = Ok rs.

(** A value [cached_serp] may return for the depth [d]: organic items only,
    and at most [d] of them when [d] is not negative. *)
Definition serp_good (d : Z) (v : list pyval) : Prop :=
  Forall (fun r => is_organic r = true) v
  /\ ((0 <= d)%Z -> length v <= Z.to_nat d).

(** Every entry of the search cache is a value [cached_serp] may return. *)
Definition serp_cache_ok (st : store) : Prop :=
  Forall (fun e : serp_key * (list pyval * Z) =>
            serp_good (snd (fst e)) (fst (snd e)))
    (serp_cache st).

(** The computation [m] keeps the property [P] of the store. *)
Definition preserves {A} (P : store -> Prop) (m : M A) : Prop :=
  forall st, P st -> P (snd (m st)).

(** The parsed response of the content API is absent, reports a failure, or
    lacks one of the nested fields [extract_text] looks for. *)
Inductive lacking : pyval -> Prop :=
| lacking_response : lacking PNone
| lacking_status d :
    api_status_ok d = false -> lacking (PDict d)
| lacking_result d :
    api_status_ok d = true ->
    truthy (dict_get_or (lit "result") d (PList [])) = false ->
    lacking (PDict d)
| lacking_items d res0 rest :
    api_status_ok d = true ->
    dict_get_or (lit "result") d (PList []) = PList (PDict res0 :: rest) ->
    dict_get (lit "items") res0 = None ->
    lacking (PDict d)
| lacking_items_empty d res0 rest items :
    api_status_ok d = true ->
    dict_get_or (lit "result") d (PList []) = PList (PDict res0 :: rest) ->
    dict_get (lit "items") res0 = Some items ->
    truthy items = false ->
    lacking (PDict d)
| lacking_page d res0 rest item0 rest' :
    api_status_ok d = true ->
    dict_get_or (lit "result") d (PList []) = PList (PDict res0 :: rest) ->
    dict_get (lit "items") res0 = Some (PList (PDict item0 :: rest')) ->
    dict_get (lit "page_content") item0 = None ->
    lacking (PDict d).

(** Bodies with HTTP status 200 and [status_code] 20000 in which [tasks],
    [result] or [items] is missing, empty or null, each with the exception
    the unguarded subscripts of [cached_serp] raise on it. *)
Definition unguarded_bodies : list (str * exn) :=
  [(jlit "{'status_code': 20000}", KeyError);
   (jlit "{'status_code': 20000, 'tasks': []}", IndexError);
   (jlit "{'status_code': 20000, 'tasks': [{}]}", KeyError);
   (jlit "{'status_code': 20000, 'tasks': [{'result': []}]}", IndexError);
   (jlit "{'status_code': 20000, 'tasks': [{'result': null}]}", TypeError);
   (jlit "{'status_code': 20000, 'tasks': [{'result': [{}]}]}", KeyError)].

(** Bodies of the content API with [status_code] 20000 on which the
    subscripts and loops of [extract_text] raise: a null where an object or a
    list is expected, a text that is no string, a body that is no object. *)
Definition unguarded_pages : list (str * exn) :=
  [(jlit "{'status_code': 20000, 'result': [null]}", TypeError);
   (jlit "{'status_code': 20000, 'result': ['items']}", TypeError);
   (jlit "{'status_code': 20000, 'result': [{'items': [null]}]}", TypeError);
   (jlit "{'status_code': 20000, 'result': [{'items': ["
    ++ jlit "{'page_content': null}]}]}", AttributeError);
   (jlit "{'status_code': 20000, 'result': [{'items': ["
    ++ jlit "{'page_content': {'main_topic': null}}]}]}", TypeError);
   (jlit "{'status_code': 20000, 'result': [{'items': ["
    ++ jlit "{'page_content': {'main_topic': ["
    ++ jlit "{'primary_content': [{'text': 5}]}]}}]}]}", TypeError);
   (jlit "[1]", AttributeError)].

(** The row [add_row] appends for the post [p]. *)
Definition plan_row (topic sources p : str) : row :=
  {| data_pubblicazione := [];
     argomento := topic;
     fonte := sources;
     contenuto_post := strip p;
     immagine := [] |}.

(** *** A scripted world, for concrete runs

    The world counts the calls made so far, which is also its time; every
    call is answered from a fixed script. *)
Record script := {
  serp_reply : result response;
  content_reply : result response;
  summary_reply : result (option str);
  posts_reply : result (option str)
}.

Definition scripted_post (sc : script) (url auth : str) (payload : pyval)
  (w : nat) : result response * nat :=
  (if str_eqb url serp_url then serp_reply sc else content_reply sc, S w).

Definition scripted_chat (sc : script) (p : prompt) (w : nat)
  : result (option str) * nat :=
  (match p with
   | SummaryPrompt _ _ => summary_reply sc
   | PostsPrompt _ _ _ _ _ _ => posts_reply sc
   end, S w).

Definition scripted_clock (w : nat) : Z := Z.of_nat w.

Definition http_ok (body : str) : result response :=
  Ok {| status_code := 200; text := body |}.

(** A search response: two organic results with an advertisement between
    them. *)
Definition demo_serp_body : str :=
  jlit "{'status_code': 20000, 'tasks': [{'result': [{'items': ["
  ++ jlit "{'type': 'organic', 'url': 'https://a.example/'}, "
  ++ jlit "{'type': 'paid', 'url': 'https://ad.example/'}, "
  ++ jlit "{'type': 'organic', 'url': 'https://b.example/'}]}]}]}".

(** A parsed page: one topic with two texts, an empty text and an entry
    that is no object. *)
Definition demo_content_body : str :=
  jlit "{'status_code': 20000, 'result': [{'items': [{'page_content': "
  ++ jlit "{'main_topic': [{'primary_content': [{'text': 'Tostatura lenta'}, "
  ++ jlit "{'text': ''}, 7, {'text': 'in piccoli lotti'}]}]}}]}]}".

Definition demo_script : script :=
  {| serp_reply := http_ok demo_serp_body;
     content_reply := http_ok demo_content_body;
     summary_reply := Ok (Some (lit "Sintesi"));
     posts_reply :=
       Ok (Some (jlit "{'posts': [' Primo post ', 'Secondo post']}")) |}.

Definition with_serp (r : result response) (sc : script) : script :=
  {| serp_reply := r;
     content_reply := content_reply sc;
     summary_reply := summary_reply sc;
     posts_reply := posts_reply sc |}.

Definition with_content (r : result response) (sc : script) : script :=
  {| serp_reply := serp_reply sc;
     content_reply := r;
     summary_reply := summary_reply sc;
     posts_reply := posts_reply sc |}.

Definition with_posts (c : option str) (sc : script) : script :=
  {| serp_reply := serp_reply sc;
     content_reply := content_reply sc;
     summary_reply := summary_reply sc;
     posts_reply := Ok c |}.

Definition demo_credentials : str := lit "bG9naW46c2VjcmV0".

Definition demo_planner : planner :=
  {| encoded_credentials := demo_credentials |}.

Definition demo_organic (url : string) : pyval :=
  PDict [(lit "type", PStr (lit "organic")); (lit "url", PStr (lit url))].

(** The topic [caffe artigianale], its [e] with a grave accent, between a
    blank line and a line of spaces. *)
Definition demo_topic : str := lit "caff" ++ [232%N] ++ lit " artigianale".

Definition demo_form : form :=
  {| business := lit "Bar Roma";
     sector := lit "Caffetteria";
     website := lit "https://www.barroma.example";
     topic_input := [10%N] ++ lit "  " ++ demo_topic ++ lit " " ++ [10%N]
                    ++ lit "   ";
     n_posts := 2;
     brief := [];
     source_mode := lit "Dal web (query generica)" |}.

(** *** Further predicates of the specification *)

(** The text [extract_text] keeps of one entry of [primary_content]: the
    [text] of a dict, when it is a non-empty string. *)
Definition kept_text (c : pyval) : option str :=
  match c with
  | PDict d =>
      match dict_get (lit "text") d with
      | Some (PStr (x :: s)) => Some (x :: s)
      | _ => None
      end
  | _ => None
  end.

Definition kept_texts (cs : list pyval) : list str :=
  flat_map (fun c => match kept_text c with Some s => [s] | None => [] end)
    cs.

(** The entries of the [primary_content] of one topic. *)
Definition topic_entries (topic : pyval) : list pyval :=
  match topic with
  | PDict d =>
      match py_iter (dict_get_or (lit "primary_content") d (PList [])) with
      | Ok cs => cs
      | Raise _ => []
      end
  | _ => []
  end.

(** The fragments of a page, topic after topic. *)
Definition page_fragments (topics : list pyval) : list str :=
  flat_map (fun t => kept_texts (topic_entries t)) topics.

(** Each fragment followed by one space. *)
Definition spaced (fragments : list str) : str :=
  concat (map (fun s => s ++ lit " ") fragments).

(** The calls a run makes to the outside. *)
Inductive call :=
| PostCall (url authorization : str) (payload : pyval)
| ChatCall (p : prompt).

(** A world may keep a log of the calls made to it. *)
Variable log : World -> list call.

(** The world logs every call, failed or not, and nothing else. *)
Definition logs_calls : Prop :=
  (forall url a p w,
     log (snd (requests_post url a p w)) = log w ++ [PostCall url a p])
  /\ (forall p w, log (snd (chat_create p w)) = log w ++ [ChatCall p]).

(** The calls of the turn of [topic] under the credentials [creds]: the
    search for the query of the topic at depth 5, the parsing of some URL,
    both under the header [Basic creds], the summary prompt of the topic and
    the posts prompt of the topic with the fields of the form. *)
Definition topic_call (creds : str) (f : form) (topic : str) (c : call)
  : Prop :=
  match c with
  | PostCall url a p =>
      a = lit "Basic " ++ creds
      /\ ((url = serp_url /\ p = serp_payload (build_query f topic) 5)
          \/ (url = content_url /\ exists u, p = content_payload u))
  | ChatCall (SummaryPrompt t _) => t = topic
  | ChatCall (PostsPrompt b s t br _ n) =>
      b = business f /\ s = sector f /\ t = topic /\ br = brief f
      /\ n = n_posts f
  end.

(** From the store [st], the computation [m] makes at most [n] calls, all of
    them satisfying [ok]. *)
Definition emits {A} (ok : call -> Prop) (n : nat) (m : M A) (st : store)
  : Prop :=
  exists new,
    log (world (snd (m st))) = log (world st) ++ new
    /\ Forall ok new /\ length new <= n.

(** *** A scripted world that logs, for concrete runs

    The world is the list of the calls made so far, and its length is the
    time; every call is answered from the script. *)
Definition logged_post (sc : script) (url auth : str) (payload : pyval)
  (w : list call) : result response * list call :=
  (if str_eqb url serp_url then serp_reply sc else content_reply sc,
   w ++ [PostCall url auth payload]).

Definition logged_chat (sc : script) (p : prompt) (w : list call)
  : result (option str) * list call :=
  (match p with
   | SummaryPrompt _ _ => summary_reply sc
   | PostsPrompt _ _ _ _ _ _ => posts_reply sc
   end, w ++ [ChatCall p]).

Definition logged_clock (w : list call) : Z := Z.of_nat (length w).

(** *** The password gate and the page *)

(** The shared password of the deployment. *)
Variable APP_PASSWORD : str.

(** What the widgets return in one run of the script: the password field,
    the button [Entra], the fields of the form and its submit button. *)
Record page := { pwd : str; entra : bool; fields : form; submit : bool }.

(** How a run of the script ends. *)
Inductive outcome :=
| AskPassword (wrong : bool)
    (* [st.stop()] at the gate; [wrong]: the error message was shown *)
| Rerun                        (* [st.rerun()] after the right password *)
| Idle                         (* the form is shown and was not submitted *)
| Ran (r : result (list row)). (* the body of [if submit:] *)

(** [st.session_state.authenticated] as a truth value; a session without the
    key is one in which it is about to be set to [False]. *)
Definition is_authenticated (session_state : dict) : bool :=
  truthy (dict_get_or (lit "authenticated") session_state PNone).

(** The gate: the session it leaves, and how the run ends when it does not
    let the run through. *)
Definition gate (session_state : dict) (pg : page) : dict * option outcome :=
  let ss :=
    if dict_has (lit "authenticated") session_state then session_state
    else dict_set (lit "authenticated") (PBool false) session_state in
  if negb (is_authenticated ss) then
    if entra pg then
      if str_eqb (pwd pg) APP_PASSWORD then
        (dict_set (lit "authenticated") (PBool true) ss, Some Rerun)
      else (ss, Some (AskPassword true))
    else (ss, Some (AskPassword false))
  else (ss, None).

(** One run of the script. *)
Definition main (session_state : dict) (pg : page) (st : store)
  : (dict * outcome) * store :=
  match gate session_state pg with
  | (ss, Some o) => ((ss, o), st)
  | (ss, None) =>
      if submit pg then
        let (r, st') := plan_rows (fields pg) st in ((ss, Ran r), st')
      else ((ss, Idle), st)
  end.

(** The runs of one browser session, one per interaction. *)
Fixpoint runs (session_state : dict) (pgs : list page) (st : store)
  : dict * store :=
  match pgs with
  | [] => (session_state, st)
  | pg :: pgs' =>
      let '((ss, _), st') := main session_state pg st in runs ss pgs' st'
  end.

(** A visitor who types a wrong password, then the right one [segreto], and
    then submits the form. *)
Definition demo_page (password : string) (enter go : bool) : page :=
  {| pwd := lit password; entra := enter; fields := demo_form; submit := go |}.

(** The topics of the parsed page of [demo_content_body] and the data around
    them. *)
Definition demo_main_topic : list pyval :=
  [PDict [(lit "primary_content",
           PList [PDict [(lit "text", PStr (lit "Tostatura lenta"))];
                  PDict [(lit "text", PStr [])];
                  PInt 7;
                  PDict [(lit "text", PStr (lit "in piccoli lotti"))]])]].

Definition demo_page_content : dict :=
  [(lit "main_topic", PList demo_main_topic)].

Definition demo_content_item : dict :=
  [(lit "page_content", PDict demo_page_content)].

Definition demo_content_result : dict :=
  [(lit "items", PList [PDict demo_content_item])].

Definition demo_content_data : dict :=
  [(lit "status_code", PInt 20000);
   (lit "result", PList [PDict demo_content_result])].

(** The lines of a topic field: an empty line, [demo_topic] between spaces,
    a line of spaces, a second topic, and [demo_topic] again. *)
Definition demo_lines : list str :=
  [[]; lit "  " ++ demo_topic ++ lit " "; lit "   "; lit "pasticceria";
   demo_topic].

Definition lines_form : form :=
  {| business := lit "Bar Roma";
     sector := lit "Caffetteria";
     website := lit "https://www.barroma.example";
     topic_input := join [10%N] demo_lines;
     n_posts := 2;
     brief := [];
     source_mode := lit "Dal web (query generica)" |}.

(** A URL with a lone surrogate, as [json.loads] makes of an escape. *)
Definition surrogate_url : pyval :=
  PStr (lit "https://a.example/" ++ [55296%N]).

(** A form whose topic field holds blank lines only. *)
Definition blank_form : form :=
  {| business := lit "Bar Roma";
     sector := lit "Caffetteria";
     website := [];
     topic_input := lit "   " ++ [10%N] ++ [9%N] ++ [10%N];
     n_posts := 2;
     brief := [];
     source_mode := lit "Dal web (query generica)" |}.

(** * Properties *)


(** ** Strings *)

Lemma str_eqb_eq (a b : str) : str_eqb a b = true <-> a = b.
Proof.
  revert b; induction a as [|x a IH]; intros [|y b]; simpl;
    try (split; [discriminate | discriminate]);
    try (split; reflexivity).
  rewrite andb_true_iff, N.eqb_eq, IH.
  split; [intros [-> ->]; reflexivity | intros H; inversion H; auto].
Qed.

Lemma str_eqb_refl (a : str) : str_eqb a a = true.
Proof. apply str_eqb_eq; reflexivity. Qed.

Lemma lstrip_nonspace (c : char) (l r : str) :
  isspace c = false -> lstrip (l ++ c :: r) = lstrip l ++ c :: r.
Proof.
  intros Hc; induction l as [|x l IH]; simpl.
  - rewrite Hc; reflexivity.
  - destruct (isspace x); [exact IH | reflexivity].
Qed.

Lemma lstrip_head (s : str) :
  match lstrip s with
  | [] => True
  | c :: _ => isspace c = false
  end.
Proof.
  induction s as [|x s IH]; simpl; [exact I|].
  destruct (isspace x) eqn:E; [exact IH | exact E].
Qed.

Lemma lstrip_idem (s : str) : lstrip (lstrip s) = lstrip s.
Proof.
  pose proof (lstrip_head s) as H.
  destruct (lstrip s) as [|c r]; simpl; [reflexivity|].
  rewrite H; reflexivity.
Qed.

Lemma rstrip_idem (s : str) : rstrip (rstrip s) = rstrip s.
Proof.
  unfold rstrip; rewrite rev_involutive, lstrip_idem; reflexivity.
Qed.

Lemma rstrip_cons (c : char) (r : str) :
  isspace c = false -> rstrip (c :: r) = c :: rstrip r.
Proof.
  intros Hc; unfold rstrip; simpl.
  replace (rev r ++ [c]) with (rev r ++ c :: []) by reflexivity.
  rewrite lstrip_nonspace by exact Hc.
  rewrite rev_app_distr; reflexivity.
Qed.

(** [strip] drops the leading whitespace, keeps the first other character
    and drops the trailing whitespace of what follows it. *)
Lemma strip_shape (s : str) :
  strip s = match lstrip s with
            | [] => []
            | c :: r => c :: rstrip r
            end.
Proof.
  unfold strip; pose proof (lstrip_head s) as H.
  destruct (lstrip s) as [|c r]; [reflexivity|].
  apply rstrip_cons; exact H.
Qed.

Lemma strip_idem (s : str) : strip (strip s) = strip s.
Proof.
  rewrite (strip_shape s); pose proof (lstrip_head s) as H.
  destruct (lstrip s) as [|c r]; [reflexivity|].
  rewrite strip_shape; simpl; rewrite H, rstrip_idem; reflexivity.
Qed.

(** A non-empty [strip s] starts with a character that is no whitespace. *)
Lemma strip_not_blank (s : str) :
  nonempty (strip s) = true -> forallb isspace (strip s) = false.
Proof.
  rewrite strip_shape; pose proof (lstrip_head s) as H.
  destruct (lstrip s) as [|c r]; simpl; [discriminate|].
  intros _; rewrite H; reflexivity.
Qed.

Lemma split_lines_not_nil (s : str) : split_lines s <> [].
Proof.
  destruct s as [|c s]; simpl; [discriminate|].
  destruct (c =? 10)%N; [discriminate|].
  destruct (split_lines s); discriminate.
Qed.

(** [split_lines] cuts at the line feeds and nowhere else. *)
Lemma split_lines_join (s : str) : join [10%N] (split_lines s) = s.
Proof.
  induction s as [|c s IH]; [reflexivity|].
  pose proof (split_lines_not_nil s) as Hne.
  simpl split_lines; destruct (N.eqb_spec c 10) as [->|Hc];
    destruct (split_lines s) as [|l ls]; try congruence.
  - change (join [10%N] ([] :: l :: ls)) with (10%N :: join [10%N] (l :: ls)).
    rewrite IH; reflexivity.
  - rewrite <- IH; destruct ls; reflexivity.
Qed.

Lemma split_lines_no_newline (s : str) :
  Forall (fun l => ~ In 10%N l) (split_lines s).
Proof.
  induction s as [|c s IH]; simpl.
  - constructor; [intros [] | constructor].
  - destruct (N.eqb_spec c 10) as [->|Hc].
    + constructor; [intros [] | exact IH].
    + destruct (split_lines s) as [|l ls]; [repeat constructor; intros [H|[]]; auto|].
      inversion IH as [|? ? Hl Hls]; subst.
      constructor; [|exact Hls].
      intros [H|H]; [auto | exact (Hl H)].
Qed.

(** ** The decoder on sample texts *)

Example json_loads_values :
  json_loads int_max_str_digits
    (jlit " [1, -2, 0.5, 2e4, true, false, null, 'a\u00e8\n'] ")
  = Ok (PList [PInt 1; PInt (-2);
               PFloat (S754_finite false 4503599627370496 (-53));
               PFloat (S754_finite false 5497558138880000 (-38));
               PBool true; PBool false; PNone;
               PStr [97%N; 232%N; 10%N]])
  /\ json_loads int_max_str_digits (jlit "{'a': 1, 'b': {}, 'a': [2]}")
     = Ok (PDict [(lit "a", PList [PInt 2]); (lit "b", PDict [])])
  /\ json_loads int_max_str_digits (jlit "'\ud83d\ude00'")
     = Ok (PStr [128512%N]).
Proof. repeat split; vm_compute; reflexivity. Qed.

Example json_loads_errors :
  Forall (fun t => json_loads int_max_str_digits t = Raise JSONDecodeError)
    [[]; lit "  "; jlit "[1,]"; jlit "{'a': 1,}"; jlit "{a: 1}"; lit "01";
     lit "1."; lit "-"; lit "nul"; jlit "'abc"; jlit "[1] 2"; jlit "[1 2]";
     jlit "{'a' 1}"; lit "[[]"; jlit "'a\x'"; lit "POST 1: Hello"].
Proof. repeat constructor. Qed.

(** A float is compared by its value: [20000.0 == 20000]. *)
Example status_code_float :
  rbind (json_loads int_max_str_digits (jlit "{'status_code': 20000.0}"))
    (fun data => py_get data (lit "status_code") PNone)
  = Ok (PFloat (S754_finite false 5497558138880000 (-38)))
  /\ py_eq_int (PFloat (S754_finite false 5497558138880000 (-38))) 20000
     = true.
Proof. split; vm_compute; reflexivity. Qed.

(** ** The pattern matcher *)

Lemma star_le (cls : char -> bool) (k : str -> option nat) :
  (forall s n, k s = Some n -> n <= length s) ->
  forall s n, star cls k s = Some n -> n <= length s.
Proof.
  intros Hk; induction s as [|c s IH]; intros n H; cbn [star] in H.
  - apply Hk; exact H.
  - destruct (cls c); [|apply Hk; exact H].
    destruct (star cls k s) as [j|]; [|apply Hk; exact H].
    injection H as <-; simpl; apply le_n_S, IH; reflexivity.
Qed.

(** A match is a prefix of the text. *)
Lemma match_here_le (re : regex) :
  forall (s : str) (n : nat), match_here re s = Some n -> n <= length s.
Proof.
  induction re as [|[cls q] re IH]; intros s n H; cbn [match_here] in H.
  - injection H as <-; apply Nat.le_0_l.
  - destruct q.
    + destruct s as [|c s]; [discriminate|].
      destruct (cls c); [|discriminate].
      destruct (match_here re s) as [j|] eqn:E; [|discriminate].
      injection H as <-; simpl; apply le_n_S, IH; exact E.
    + exact (star_le cls _ IH _ H).
    + destruct s as [|c s]; [discriminate|].
      destruct (cls c); [|discriminate].
      destruct (star cls (match_here re) s) as [j|] eqn:E; [|discriminate].
      injection H as <-; simpl; apply le_n_S.
      exact (star_le cls _ IH _ E).
Qed.

Lemma star_sound (cls : char -> bool) (k : str -> option nat)
  (P : str -> Prop) :
  (forall s n, k s = Some n -> P (firstn n s)) ->
  forall s n, star cls k s = Some n ->
    exists cs m, firstn n s = cs ++ m /\ forallb cls cs = true /\ P m.
Proof.
  intros Hk; induction s as [|c s IH]; intros n H; cbn [star] in H.
  - exists [], (firstn n []); repeat split; apply Hk; exact H.
  - destruct (cls c) eqn:Ec;
      [|exists [], (firstn n (c :: s)); repeat split; apply Hk; exact H].
    destruct (star cls k s) as [j|] eqn:E;
      [|exists [], (firstn n (c :: s)); repeat split; apply Hk; exact H].
    injection H as <-.
    destruct (IH j eq_refl) as (cs & m & Hcut & Hcs & Hm).
    exists (c :: cs), m; simpl; rewrite Hcut, Ec, Hcs; auto.
Qed.

(** What the matcher finds is a string of the pattern. *)
Lemma match_here_sound (re : regex) :
  forall (s : str) (n : nat),
    match_here re s = Some n -> in_lang re (firstn n s).
Proof.
  induction re as [|[cls q] re IH]; intros s n H; cbn [match_here] in H.
  - injection H as <-; constructor.
  - destruct q.
    + destruct s as [|c s]; [discriminate|].
      destruct (cls c) eqn:Ec; [|discriminate].
      destruct (match_here re s) as [j|] eqn:E; [|discriminate].
      injection H as <-; simpl; constructor; auto.
    + destruct (star_sound cls _ _ IH _ H) as (cs & m & -> & Hcs & Hm).
      constructor; auto.
    + destruct s as [|c s]; [discriminate|].
      destruct (cls c) eqn:Ec; [|discriminate].
      destruct (star cls (match_here re) s) as [j|] eqn:E; [|discriminate].
      injection H as <-; simpl.
      destruct (star_sound cls _ _ IH _ E) as (cs & m & -> & Hcs & Hm).
      constructor; auto.
Qed.

Lemma star_complete (cls : char -> bool) (k : str -> option nat)
  (cs s : str) :
  forallb cls cs = true -> k s <> None -> star cls k (cs ++ s) <> None.
Proof.
  intros Hcs Hk; induction cs as [|c cs IH]; simpl in *.
  - destruct s as [|c s]; cbn [star]; [exact Hk|].
    destruct (cls c); [|exact Hk].
    destruct (star cls k s); [discriminate | exact Hk].
  - apply andb_true_iff in Hcs as [Hc Hcs]; rewrite Hc.
    destruct (star cls k (cs ++ s)); [discriminate|].
    exfalso; exact (IH Hcs eq_refl).
Qed.

(** Where a string of the pattern starts, the matcher finds a match. *)
Lemma match_here_complete (re : regex) (m : str) :
  in_lang re m -> forall rest, match_here re (m ++ rest) <> None.
Proof.
  induction 1 as [|cls re c m Hc _ IH|cls re cs m Hcs _ IH
                 |cls re c cs m Hc Hcs _ IH]; intros rest;
    cbn [match_here app].
  - discriminate.
  - rewrite Hc; specialize (IH rest).
    destruct (match_here re (m ++ rest)); [discriminate | exact IH].
  - rewrite <- app_assoc; apply star_complete; [exact Hcs | apply IH].
  - rewrite Hc, <- app_assoc.
    pose proof (star_complete cls (match_here re) cs (m ++ rest) Hcs (IH rest))
      as Hs.
    destruct (star cls (match_here re) (cs ++ m ++ rest));
      [discriminate | exact Hs].
Qed.

(** ** The splitter *)

Lemma re_split_skip (re : regex) :
  forall (s : str) (k : nat) (piece : str),
    k <= length s ->
    re_split_from re k piece s = re_split_from re 0 piece (skipn k s).
Proof.
  induction s as [|c s IH]; intros [|k] piece Hk; try reflexivity.
  simpl in Hk; cbn [re_split_from skipn].
  apply IH; apply le_S_n; exact Hk.
Qed.

Lemma split_at_cons (re : regex) (c : char) (s p : str) (l : list str) :
  match_len re (c :: s) = None ->
  split_at re s (p :: l) ->
  split_at re (c :: s) ((c :: p) :: l).
Proof.
  intros Hc H; inversion H as [s0 Hno|p0 m rest l0 Hno Hm Hrest]; subst.
  - apply split_last; intros [|i] Hi; [exact Hc|].
    apply Hno; simpl in Hi; apply le_S_n; exact Hi.
  - change (c :: p ++ m ++ rest) with ((c :: p) ++ m ++ rest).
    apply split_cut; [|exact Hm|exact Hrest].
    intros [|i] Hi; [exact Hc|].
    apply Hno; simpl in Hi; apply le_S_n; exact Hi.
Qed.

Lemma re_split_from_spec (re : regex) (n : nat) :
  forall (s piece : str),
    length s <= n ->
    exists p l,
      re_split_from re 0 piece s = (rev piece ++ p) :: l
      /\ split_at re s (p :: l).
Proof.
  induction n as [|n IH]; intros s piece Hn.
  - destruct s; [|inversion Hn].
    exists [], []; rewrite app_nil_r; split; [reflexivity|].
    apply split_last; intros i Hi; inversion Hi.
  - destruct s as [|c s].
    { exists [], []; rewrite app_nil_r; split; [reflexivity|].
      apply split_last; intros i Hi; inversion Hi. }
    simpl in Hn; apply le_S_n in Hn.
    cbn [re_split_from].
    destruct (match_here re (c :: s)) as [[|k]|] eqn:E.
    + destruct (IH s (c :: piece) Hn) as (p & l & Hr & Hs).
      exists (c :: p), l; split.
      * rewrite Hr; simpl; rewrite <- app_assoc; reflexivity.
      * apply split_at_cons; [unfold match_len; rewrite E; reflexivity|exact Hs].
    + pose proof (match_here_le _ _ E) as Hk; simpl in Hk; apply le_S_n in Hk.
      rewrite re_split_skip by exact Hk.
      assert (Hlen : length (skipn k s) <= n).
      { rewrite length_skipn; lia. }
      destruct (IH (skipn k s) [] Hlen) as (p & l & Hr & Hs).
      exists [], (p :: l); split.
      * rewrite Hr, app_nil_r; reflexivity.
      * pose proof (firstn_skipn (S k) (c :: s)) as Hcut.
        change (skipn (S k) (c :: s)) with (skipn k s) in Hcut.
        rewrite <- Hcut at 1.
        change (firstn (S k) (c :: s) ++ skipn k s)
          with ([] ++ firstn (S k) (c :: s) ++ skipn k s).
        apply split_cut; [intros i Hi; inversion Hi| |exact Hs].
        rewrite Hcut; unfold match_len; rewrite E.
        rewrite length_firstn, Nat.min_l; [reflexivity|simpl; lia].
    + destruct (IH s (c :: piece) Hn) as (p & l & Hr & Hs).
      exists (c :: p), l; split.
      * rewrite Hr; simpl; rewrite <- app_assoc; reflexivity.
      * apply split_at_cons; [unfold match_len; rewrite E; reflexivity|exact Hs].
Qed.

(** [re_split] cuts the text at its successive leftmost matches. *)
Lemma re_split_spec (re : regex) (s : str) : split_at re s (re_split re s).
Proof.
  destruct (@re_split_from_spec re (length s) s [] (le_n _))
    as (p & l & Hr & Hs).
  unfold re_split; rewrite Hr; exact Hs.
Qed.
(** The pattern is case-sensitive, wants a digit, and takes the whitespace
    before the digits but none after them. *)
Example re_split_post_re :
  re_split post_re (lit "post 1: a POST2-b POST 12 : c POST  3:  POST 4: d ")
  = [lit "post 1: a "; lit "b POST 12 : c "; lit "  "; lit " d "]
  /\ stripped_parts
       (re_split post_re
          (lit "post 1: a POST2-b POST 12 : c POST  3:  POST 4: d "))
     = [lit "post 1: a"; lit "b POST 12 : c"; lit "d"]
  /\ re_split post_re (lit "aPOST 1:") = [lit "a"; []].
Proof. repeat split; vm_compute; reflexivity. Qed.

(** The strings of [post_re]: [POST], any whitespace, at least one decimal
    digit, then a colon or a hyphen. *)
Lemma post_re_lang (m : str) :
  in_lang post_re m <->
  exists ws ds c,
    m = lit "POST" ++ ws ++ ds ++ [c]
    /\ forallb isspace ws = true
    /\ ds <> [] /\ forallb isdecimal ds = true
    /\ (c = ch ":" \/ c = ch "-").
Proof.
  unfold post_re; split.
  - intros H.
    repeat match goal with
           | H : in_lang (_ :: _) _ |- _ => inversion H; subst; clear H
           | H : in_lang [] _ |- _ => inversion H; subst; clear H
           | H : is_char _ _ = true |- _ =>
               unfold is_char in H; apply N.eqb_eq in H; subst
           end.
    match goal with
    | Hc : (_ || _) = true, Hd : isdecimal ?d = true,
      Hds : forallb isdecimal ?ds = true,
      Hws : forallb isspace ?ws = true |- _ =>
        exists ws, (d :: ds); eexists; repeat split;
          [exact Hws | discriminate | simpl; rewrite Hd, Hds; reflexivity
          |apply orb_true_iff in Hc as [Hc|Hc];
           unfold is_char in Hc; apply N.eqb_eq in Hc; auto]
    end.
  - intros (ws & ds & c & -> & Hws & Hne & Hds & Hc).
    destruct ds as [|d ds]; [congruence|].
    simpl in Hds; apply andb_true_iff in Hds as [Hd Hds].
    simpl; repeat (apply lang_one; [reflexivity|]).
    apply lang_star; [exact Hws|].
    simpl; apply lang_plus; [exact Hd | exact Hds |].
    apply lang_one; [|constructor].
    destruct Hc as [->| ->]; reflexivity.
Qed.

(** No match of [post_re] is empty, which is what [re_split] relies on. *)
Lemma post_re_not_empty (s : str) : match_here post_re s <> Some 0.
Proof.
  intros H; apply match_here_sound in H; simpl in H.
  apply post_re_lang in H as (ws & ds & c & H & _); discriminate.
Qed.

(** ** The state monad *)

Lemma bind_ok {A B} (m : M A) (k : A -> M B) (st st' : store) (b : B) :
  bind m k st = (Ok b, st') ->
  exists a st1, m st = (Ok a, st1) /\ k a st1 = (Ok b, st').
Proof.
  unfold bind; destruct (m st) as [[a|e] st1]; intros H.
  - exists a, st1; auto.
  - discriminate.
Qed.

Lemma lift_ok {A} (r : result A) (st st' : store) (a : A) :
  lift r st = (Ok a, st') -> r = Ok a /\ st' = st.
Proof. unfold lift; intros H; split; congruence. Qed.

Lemma ret_ok {A} (a b : A) (st st' : store) :
  ret a st = (Ok b, st') -> b = a /\ st' = st.
Proof. unfold ret; intros H; split; congruence. Qed.

Lemma io_run {A} (f : World -> result A * World) (st : store)
  (r : result A) (w : World) :
  f (world st) = (r, w) ->
  io f st = (r, {| world := w; serp_cache := serp_cache st;
                   content_cache := content_cache st |}).
Proof. unfold io; intros ->; reflexivity. Qed.

(** ** The post generator *)

Lemma generate_posts_run (self : planner) (b s t br : str) (sm : pyval)
  (n : Z) (st : store) (c : option str) (w : World) :
  chat_create (PostsPrompt b s t br sm n) (world st) = (Ok c, w) ->
  fst (generate_posts self b s t br sm n st)
  = posts_of_content (content_value c).
Proof.
  intros H; unfold generate_posts, bind.
  rewrite (io_run _ _ H); reflexivity.
Qed.

Lemma stripped_parts_stripped (parts : list str) :
  Forall (fun p => nonempty p = true /\ strip p = p) (stripped_parts parts).
Proof.
  unfold stripped_parts; induction parts as [|p ps IH]; simpl; [constructor|].
  destruct (nonempty (strip p)) eqn:E; [|exact IH].
  constructor; [split; [exact E | apply strip_idem] | exact IH].
Qed.

(** C3: when [json.loads] raises on the model's output, [generate_posts]
    returns the pieces of the output between the successive matches of
    [POST\s*\d+[:\-]], each stripped, the empty ones dropped; every piece
    returned is non-empty and stripped; and the output
    [POST 1: Hello POST 2: World] gives exactly [Hello] and [World]. *)
Theorem generate_posts_fallback (self : planner) (b s t br : str)
  (sm : pyval) (n : Z) (st : store) (content : str) (w : World) :
  chat_create (PostsPrompt b s t br sm n) (world st) = (Ok (Some content), w) ->
  (forall e, json_loads int_max_str_digits content = Raise e ->
     fst (generate_posts self b s t br sm n st)
     = Ok (PList (map PStr (stripped_parts (re_split post_re content)))))
  /\ split_at post_re content (re_split post_re content)
  /\ Forall (fun p => nonempty p = true /\ strip p = p)
       (stripped_parts (re_split post_re content))
  /\ (content = lit "POST 1: Hello POST 2: World" ->
      fst (generate_posts self b s t br sm n st)
      = Ok (PList [PStr (lit "Hello"); PStr (lit "World")])).
Proof.
  intros Hchat; rewrite (generate_posts_run self st Hchat).
  split; [|split; [|split]].
  - intros e He; unfold posts_of_content; simpl.
    rewrite He; reflexivity.
  - apply re_split_spec.
  - apply stripped_parts_stripped.
  - intros ->; vm_compute; reflexivity.
Qed.

(** The fallback is also taken when the output parses as JSON but not as an
    object: [data.get] raises inside the [try]. *)
Lemma generate_posts_non_object (self : planner) (b s t br : str)
  (sm : pyval) (n : Z) (st : store) (content : str) (w : World) (v : pyval) :
  chat_create (PostsPrompt b s t br sm n) (world st) = (Ok (Some content), w) ->
  json_loads int_max_str_digits content = Ok v ->
  isinstance_dict v = false ->
  fst (generate_posts self b s t br sm n st)
  = Ok (PList (map PStr (stripped_parts (re_split post_re content)))).
Proof.
  intros Hchat Hjson Hv; rewrite (generate_posts_run self st Hchat).
  unfold posts_of_content, content_value, py_json_loads.
  rewrite Hjson; destruct v; try discriminate; reflexivity.
Qed.

(** An output that is [None] makes [json.loads] and then [re.split] raise
    [TypeError]. *)
Lemma generate_posts_none (self : planner) (b s t br : str)
  (sm : pyval) (n : Z) (st : store) (w : World) :
  chat_create (PostsPrompt b s t br sm n) (world st) = (Ok None, w) ->
  fst (generate_posts self b s t br sm n st) = Raise TypeError.
Proof.
  intros Hchat; rewrite (generate_posts_run self st Hchat); reflexivity.
Qed.

(** C4: when the model's output is the JSON text [{"posts": ["a","b"]}],
    [generate_posts] returns exactly the list of [a] and [b]. *)
Theorem generate_posts_well_formed (self : planner) (b s t br : str)
  (sm : pyval) (n : Z) (st : store) (w : World) :
  chat_create (PostsPrompt b s t br sm n) (world st)
  = (Ok (Some (jlit "{'posts': ['a','b']}")), w) ->
  fst (generate_posts self b s t br sm n st)
  = Ok (PList [PStr (lit "a"); PStr (lit "b")]).
Proof.
  intros Hchat; rewrite (generate_posts_run self st Hchat).
  vm_compute; reflexivity.
Qed.

(** C10: when the model's output parses as a JSON object without the key
    [posts], [generate_posts] returns the empty list, the default of
    [data.get("posts", [])], whatever the pattern would find in the text. *)
Theorem generate_posts_no_posts_key (self : planner) (b s t br : str)
  (sm : pyval) (n : Z) (st : store) (content : str) (w : World) (d : dict) :
  chat_create (PostsPrompt b s t br sm n) (world st) = (Ok (Some content), w) ->
  json_loads int_max_str_digits content = Ok (PDict d) ->
  dict_get (lit "posts") d = None ->
  fst (generate_posts self b s t br sm n st) = Ok (PList []).
Proof.
  intros Hchat Hjson Hkey; rewrite (generate_posts_run self st Hchat).
  unfold posts_of_content, content_value, py_json_loads.
  rewrite Hjson; unfold rbind, py_get, dict_get_or.
  rewrite Hkey; reflexivity.
Qed.

(** ** The topics *)

Lemma lstrip_blank (s : str) : forallb isspace s = true -> lstrip s = [].
Proof.
  induction s as [|c s IH]; simpl; [reflexivity|].
  destruct (isspace c); [exact IH | discriminate].
Qed.

Lemma strip_blank (s : str) : forallb isspace s = true -> strip s = [].
Proof. intros H; unfold strip; rewrite (lstrip_blank _ H); reflexivity. Qed.

Lemma lstrip_not_blank (s : str) :
  forallb isspace s = false -> lstrip s <> [].
Proof.
  induction s as [|c s IH]; simpl; [discriminate|].
  destruct (isspace c); [exact IH | discriminate].
Qed.

(** A line survives the filter exactly when it is not blank. *)
Lemma nonempty_strip (s : str) :
  nonempty (strip s) = negb (forallb isspace s).
Proof.
  destruct (forallb isspace s) eqn:E.
  - rewrite (strip_blank _ E); reflexivity.
  - rewrite strip_shape; pose proof (lstrip_not_blank _ E) as H.
    destruct (lstrip s); [congruence | reflexivity].
Qed.

Lemma split_lines_line (l s : str) :
  ~ In 10%N l -> split_lines (l ++ 10%N :: s) = l :: split_lines s.
Proof.
  induction l as [|c l IH]; intros Hl; [reflexivity|].
  cbn [app split_lines].
  destruct (N.eqb_spec c 10) as [->|Hc]; [exfalso; apply Hl; left; reflexivity|].
  rewrite IH; [reflexivity | intros H; apply Hl; right; exact H].
Qed.

Lemma split_lines_single (l : str) : ~ In 10%N l -> split_lines l = [l].
Proof.
  induction l as [|c l IH]; intros Hl; [reflexivity|].
  cbn [split_lines].
  destruct (N.eqb_spec c 10) as [->|Hc]; [exfalso; apply Hl; left; reflexivity|].
  rewrite IH; [reflexivity | intros H; apply Hl; right; exact H].
Qed.

(** [split_lines] gives back the lines a text was joined from. *)
Lemma split_lines_of_join (ls : list str) :
  forall l : str,
    Forall (fun l => ~ In 10%N l) (l :: ls) ->
    split_lines (join [10%N] (l :: ls)) = l :: ls.
Proof.
  induction ls as [|l' ls IH]; intros l H; inversion H as [|? ? Hl Hls]; subst.
  - apply split_lines_single; exact Hl.
  - change (join [10%N] (l :: l' :: ls))
      with (l ++ 10%N :: join [10%N] (l' :: ls)).
    rewrite split_lines_line by exact Hl.
    rewrite IH by exact Hls; reflexivity.
Qed.

(** The topics of a text made of lines: the lines that are not blank,
    stripped, in their order. *)
Lemma parse_topics_lines (lines : list str) :
  Forall (fun l => ~ In 10%N l) lines ->
  parse_topics (join [10%N] lines)
  = map strip (filter (fun l => negb (forallb isspace l)) lines).
Proof.
  intros H; unfold parse_topics.
  destruct lines as [|l ls]; [reflexivity|].
  rewrite split_lines_of_join by exact H.
  f_equal; apply filter_ext; intros x; apply nonempty_strip.
Qed.

(** ** The cache *)

Lemma cache_data_miss {K V} (hashes : K -> bool) (eqb : K -> K -> bool)
  (get : store -> list (K * (V * Z)))
  (set : list (K * (V * Z)) -> store -> store)
  (ttl : Z) (body : K -> M V) (k : K) (st : store) :
  hashes k = true ->
  cache_hit eqb ttl (clock (world st)) k (get st) = None ->
  cache_data hashes eqb get set ttl body k st
  = match body k st with
    | (Ok v, st') =>
        (Ok v, set (cache_put eqb k (v, clock (world st')) (get st')) st')
    | (Raise e, st') => (Raise e, st')
    end.
Proof. unfold cache_data; intros -> ->; reflexivity. Qed.

(** A call whose arguments do not hash raises and leaves the store alone. *)
Lemma cache_data_unhashable {K V} (hashes : K -> bool)
  (eqb : K -> K -> bool) (get : store -> list (K * (V * Z)))
  (set : list (K * (V * Z)) -> store -> store)
  (ttl : Z) (body : K -> M V) (k : K) (st : store) :
  hashes k = false ->
  cache_data hashes eqb get set ttl body k st
  = (Raise UnicodeEncodeError, st).
Proof. unfold cache_data; intros ->; reflexivity. Qed.

(** A cached call that returns had arguments that hash. *)
Lemma cache_data_hashes {K V} (hashes : K -> bool) (eqb : K -> K -> bool)
  (get : store -> list (K * (V * Z)))
  (set : list (K * (V * Z)) -> store -> store)
  (ttl : Z) (body : K -> M V) (k : K) (st st' : store) (v : V) :
  cache_data hashes eqb get set ttl body k st = (Ok v, st') ->
  hashes k = true.
Proof.
  unfold cache_data; destruct (hashes k); [reflexivity | discriminate].
Qed.

Lemma cached_serp_hashes (keyword creds : str) (depth : Z)
  (st st' : store) (l : list pyval) :
  cached_serp keyword creds depth st = (Ok l, st') ->
  serp_key_hashes (keyword, creds, depth) = true.
Proof. unfold cached_serp; apply cache_data_hashes. Qed.

Lemma cached_content_hashes (url : pyval) (creds : str) (st st' : store)
  (v : pyval) :
  cached_content_full url creds st = (Ok v, st') ->
  content_key_hashes (url, creds) = true.
Proof. unfold cached_content_full; apply cache_data_hashes. Qed.

(** A cached call returns a stored value and leaves the store alone, or
    returns what its body returns. *)
Lemma cache_data_ok {K V} (hashes : K -> bool) (eqb : K -> K -> bool)
  (get : store -> list (K * (V * Z)))
  (set : list (K * (V * Z)) -> store -> store)
  (ttl : Z) (body : K -> M V) (k : K) (st st' : store) (v : V) :
  cache_data hashes eqb get set ttl body k st = (Ok v, st') ->
  (cache_hit eqb ttl (clock (world st)) k (get st) = Some v /\ st' = st)
  \/ (cache_hit eqb ttl (clock (world st)) k (get st) = None
      /\ exists st1, body k st = (Ok v, st1)
         /\ st' = set (cache_put eqb k (v, clock (world st1)) (get st1)) st1).
Proof.
  unfold cache_data; destruct (hashes k); [|discriminate].
  destruct (cache_hit eqb ttl (clock (world st)) k (get st)) as [v0|].
  - intros H; inversion H; subst; left; auto.
  - destruct (body k st) as [[v0|e] st1]; intros H; inversion H; subst.
    right; split; [reflexivity|]; exists st1; auto.
Qed.

Lemma cache_hit_put {K V} (eqb : K -> K -> bool) (ttl now t : Z) (k : K)
  (v : V) (c : list (K * (V * Z))) :
  eqb k k = true -> (now < t + ttl)%Z ->
  cache_hit eqb ttl now k (cache_put eqb k (v, t) c) = Some v.
Proof.
  intros Hrefl Hnow; unfold cache_hit.
  assert (cache_lookup eqb k (cache_put eqb k (v, t) c) = Some (v, t)) as ->.
  { induction c as [|[k' e'] c IH]; simpl.
    - rewrite Hrefl; reflexivity.
    - destruct (eqb k k') eqn:E; simpl; rewrite E; [reflexivity | exact IH]. }
  apply Z.ltb_lt in Hnow; rewrite Hnow; reflexivity.
Qed.

(** ** The content extractor *)

(** Case analysis on an innermost scrutinee of the goal. *)
Ltac break_goal :=
  match goal with
  | |- context [match ?x with _ => _ end] =>
      lazymatch x with
      | context [match _ with _ => _ end] => fail
      | _ => destruct x eqn:?
      end
  end.

(** Whatever the response holds, the text returned has at most 4000
    characters. *)
Lemma text_of_data_bound (data : pyval) :
  match text_of_data data with
  | Ok s => length s <= 4000
  | Raise _ => True
  end.
Proof.
  unfold text_of_data, rbind.
  repeat break_goal; trivial;
    first [ unfold str_prefix; apply firstn_le_length | apply Nat.le_0_l ].
Qed.

Lemma text_of_data_length (data : pyval) (s : str) :
  text_of_data data = Ok s -> length s <= 4000.
Proof.
  intros H; pose proof (text_of_data_bound data) as B.
  rewrite H in B; exact B.
Qed.

Lemma has_first_dict (d : dict) (rest : list pyval) (k : str) :
  has_first_with (PList (PDict d :: rest)) k = Ok (dict_has k d).
Proof. reflexivity. Qed.

Lemma text_of_dict (d : dict) :
  text_of_data (PDict d)
  = if api_status_ok d then
      let res := dict_get_or (lit "result") d (PList []) in
      rbind (has_first_with res (lit "items")) (fun has_items =>
      if has_items then
        rbind (getitem_0 res) (fun res0 =>
        rbind (getitem_str res0 (lit "items")) (fun items =>
        rbind (has_first_with items (lit "page_content")) (fun has_page =>
        if has_page then
          rbind (getitem_0 items) (fun item0 =>
          rbind (getitem_str item0 (lit "page_content")) (fun page =>
          rbind (py_get page (lit "main_topic") (PList [])) (fun mt =>
          rbind (py_iter mt) (fun topics =>
          rbind (add_topics [] topics) (fun text =>
          Ok (str_prefix 4000 text))))))
        else Ok [])))
      else Ok [])
    else Ok [].
Proof.
  unfold text_of_data, api_status_ok.
  destruct d as [|kv d]; [reflexivity|].
  unfold truthy, negb, py_get, rbind.
  destruct (py_eq_int _ 20000); reflexivity.
Qed.

Lemma text_of_data_lacking (data : pyval) :
  lacking data -> text_of_data data = Ok [].
Proof.
  intros L.
  destruct L as [ | d Hs | d Hs Hr | d r0 rest Hs Hr Hi
                | d r0 rest items Hs Hr Hi Ht
                | d r0 rest i0 rest' Hs Hr Hi Hp ]; [reflexivity|..];
    rewrite text_of_dict, Hs; try reflexivity; cbv zeta.
  - unfold has_first_with; rewrite Hr; reflexivity.
  - rewrite Hr, has_first_dict; unfold dict_has; rewrite Hi; reflexivity.
  - rewrite Hr, has_first_dict; unfold dict_has; rewrite Hi.
    unfold rbind, getitem_0, getitem_str; rewrite Hi.
    unfold has_first_with; rewrite Ht; reflexivity.
  - rewrite Hr, has_first_dict; unfold dict_has; rewrite Hi.
    unfold rbind, getitem_0, getitem_str; rewrite Hi.
    rewrite has_first_dict; unfold dict_has; rewrite Hp; reflexivity.
Qed.

Lemma extract_text_run (self : planner) (url : pyval) (st st' : store)
  (data : pyval) :
  cached_content_full url (encoded_credentials self) st = (Ok data, st') ->
  extract_text self url st = (text_of_data data, st').
Proof. intros H; unfold extract_text, bind; rewrite H; reflexivity. Qed.

(** C2: when the parsed response of the content API is absent ([None]), has
    a [status_code] other than 20000, an empty [result], a first result
    without [items] or with empty [items], or a first item without
    [page_content], [extract_text] returns the empty string and raises
    nothing. *)
Theorem extract_text_lacking (self : planner) (url : pyval)
  (st st' : store) (data : pyval) :
  cached_content_full url (encoded_credentials self) st = (Ok data, st') ->
  lacking data ->
  extract_text self url st = (Ok [], st').
Proof.
  intros Hc L; rewrite (extract_text_run self url st Hc).
  rewrite (text_of_data_lacking L); reflexivity.
Qed.

(** C5: for every URL, every store and every world, a string returned by
    [extract_text] has at most 4000 characters. *)
Theorem extract_text_length (self : planner) (url : pyval)
  (st st' : store) (s : str) :
  extract_text self url st = (Ok s, st') -> length s <= 4000.
Proof.
  unfold extract_text; intros H.
  apply bind_ok in H as (data & st1 & _ & H).
  unfold lift in H; inversion H as [[Ht Hst]].
  exact (text_of_data_length data Ht).
Qed.

(** Outside the cases of [lacking], a malformed response makes
    [extract_text] raise. *)
Lemma text_of_data_unguarded (body : str) (e : exn) :
  In (body, e) unguarded_pages ->
  rbind (json_loads int_max_str_digits body) text_of_data = Raise e.
Proof.
  unfold unguarded_pages; intros H.
  repeat (destruct H as [H|H];
          [injection H as <- <-; vm_compute; reflexivity|]).
  destruct H.
Qed.

(** ** The search-results fetcher *)

Lemma cached_serp_body_run (keyword creds : str) (depth : Z) (st : store)
  (r : response) (w : World) :
  requests_post serp_url (lit "Basic " ++ creds) (serp_payload keyword depth)
    (world st) = (Ok r, w) ->
  cached_serp_body (keyword, creds, depth) st
  = (serp_of_response r depth,
     {| world := w; serp_cache := serp_cache st;
        content_cache := content_cache st |}).
Proof.
  intros H; unfold cached_serp_body, bind.
  rewrite (io_run _ _ H); reflexivity.
Qed.

(** On a call that reaches the API, [cached_serp] returns what it makes of
    the response. *)
Lemma cached_serp_miss (keyword creds : str) (depth : Z) (st : store)
  (r : response) (w : World) :
  serp_key_hashes (keyword, creds, depth) = true ->
  cache_hit serp_key_eqb 3600 (clock (world st)) (keyword, creds, depth)
    (serp_cache st) = None ->
  requests_post serp_url (lit "Basic " ++ creds) (serp_payload keyword depth)
    (world st) = (Ok r, w) ->
  fst (cached_serp keyword creds depth st) = serp_of_response r depth.
Proof.
  intros Hhash Hmiss Hpost; unfold cached_serp.
  rewrite cache_data_miss by assumption.
  erewrite cached_serp_body_run by exact Hpost.
  destruct (serp_of_response r depth); reflexivity.
Qed.

(** C1: when the call reaches the search API, its arguments hashing and the
    cache holding no live entry, and the response has an HTTP status other
    than 200, or a JSON object as body whose [status_code] is not 20000,
    [cached_serp] returns the empty list and raises nothing. *)
Theorem cached_serp_failure_empty (keyword creds : str) (depth : Z)
  (st : store) (r : response) (w : World) :
  serp_key_hashes (keyword, creds, depth) = true ->
  cache_hit serp_key_eqb 3600 (clock (world st)) (keyword, creds, depth)
    (serp_cache st) = None ->
  requests_post serp_url (lit "Basic " ++ creds) (serp_payload keyword depth)
    (world st) = (Ok r, w) ->
  status_code r <> 200%Z
  \/ (exists d, json_loads int_max_str_digits (text r) = Ok (PDict d)
               /\ api_status_ok d = false) ->
  fst (cached_serp keyword creds depth st) = Ok [].
Proof.
  intros Hhash Hmiss Hpost Hfail.
  erewrite cached_serp_miss by eassumption.
  unfold serp_of_response.
  destruct (Z.eqb_spec (status_code r) 200) as [E|E]; [|reflexivity].
  destruct Hfail as [Hne|(d & Hjson & Hstatus)]; [contradiction|].
  rewrite Hjson; unfold rbind, py_get; fold (api_status_ok d).
  rewrite Hstatus; reflexivity.
Qed.

(** With status 200, a body that is no JSON text, or JSON text but no
    object, makes [cached_serp] raise: [response.json()] in the first case,
    [data.get] in the second. *)
Example serp_body_not_object (depth : Z) :
  serp_of_response {| status_code := 200; text := lit "<html></html>" |} depth
  = Raise JSONDecodeError
  /\ serp_of_response {| status_code := 200; text := lit "[1, 2]" |} depth
     = Raise AttributeError.
Proof. split; vm_compute; reflexivity. Qed.

Lemma serp_unguarded (body : str) (e : exn) (depth : Z) :
  In (body, e) unguarded_bodies ->
  serp_of_response {| status_code := 200; text := body |} depth = Raise e
  /\ exists d, json_loads int_max_str_digits body = Ok (PDict d)
              /\ api_status_ok d = true.
Proof.
  unfold unguarded_bodies; intros H.
  repeat (destruct H as [H|H];
          [injection H as <- <-; split;
           [vm_compute; reflexivity
           |eexists; split; vm_compute; reflexivity]|]).
  destruct H.
Qed.

(** Every body of [unguarded_bodies] makes [cached_serp] raise. *)
Lemma cached_serp_unguarded_family (body : str) (e : exn)
  (keyword creds : str) (depth : Z) (st : store) (w : World) :
  In (body, e) unguarded_bodies ->
  serp_key_hashes (keyword, creds, depth) = true ->
  cache_hit serp_key_eqb 3600 (clock (world st)) (keyword, creds, depth)
    (serp_cache st) = None ->
  requests_post serp_url (lit "Basic " ++ creds) (serp_payload keyword depth)
    (world st) = (Ok {| status_code := 200; text := body |}, w) ->
  fst (cached_serp keyword creds depth st) = Raise e.
Proof.
  intros Hin Hhash Hmiss Hpost.
  erewrite cached_serp_miss by eassumption.
  apply serp_unguarded; exact Hin.
Qed.

(** C9: there is a response with HTTP status 200 whose body is a JSON object
    with [status_code] 20000 and without [tasks], on which [cached_serp]
    raises [KeyError] instead of returning the empty list, on every call that
    reaches the API and gets it: the successful branch subscripts
    [data["tasks"][0]["result"][0]["items"]] unguarded. *)
Theorem cached_serp_unguarded_raises :
  exists r : response,
    status_code r = 200%Z
    /\ (exists d, json_loads int_max_str_digits (text r) = Ok (PDict d)
                 /\ api_status_ok d = true
                 /\ dict_get (lit "tasks") d = None)
    /\ forall (keyword creds : str) (depth : Z) (st : store) (w : World),
         serp_key_hashes (keyword, creds, depth) = true ->
         cache_hit serp_key_eqb 3600 (clock (world st))
           (keyword, creds, depth) (serp_cache st) = None ->
         requests_post serp_url (lit "Basic " ++ creds)
           (serp_payload keyword depth) (world st) = (Ok r, w) ->
         fst (cached_serp keyword creds depth st) = Raise KeyError.
Proof.
  exists {| status_code := 200; text := jlit "{'status_code': 20000}" |}.
  split; [reflexivity|split].
  - eexists; repeat split; vm_compute; reflexivity.
  - intros keyword creds depth st w Hhash Hmiss Hpost.
    eapply cached_serp_unguarded_family; [|exact Hhash|exact Hmiss|exact Hpost].
    left; reflexivity.
Qed.

Lemma Ok_inj {A} (x y : A) : Ok x = Ok y -> x = y.
Proof. congruence. Qed.

(** Case analysis on an innermost scrutinee of the hypothesis [H]. *)
Ltac break_hyp H :=
  match type of H with
  | context [match ?x with _ => _ end] =>
      lazymatch x with
      | context [match _ with _ => _ end] => fail
      | _ => destruct x eqn:?
      end
  end.


Lemma organic_only_filter (rs l : list pyval) :
  organic_only rs = Ok l -> l = filter is_organic rs.
Proof.
  revert l; induction rs as [|r rs IH]; intros l H;
    cbn [organic_only filter] in *.
  - apply Ok_inj in H; auto.
  - unfold rbind in H; unfold is_organic at 1.
    destruct (getitem_str r (lit "type")) as [t|]; [|discriminate].
    destruct (organic_only rs) as [keep|]; [|discriminate].
    apply Ok_inj in H; subst l; rewrite (IH keep eq_refl); reflexivity.
Qed.

Lemma filter_organic (rs : list pyval) :
  Forall (fun r => is_organic r = true) (filter is_organic rs).
Proof.
  apply Forall_forall; intros r H; apply filter_In in H; exact (proj2 H).
Qed.

Lemma Forall_take {A} (P : A -> Prop) (n : nat) (l : list A) :
  Forall P l -> Forall P (firstn n l).
Proof.
  intros H; revert n; induction H as [|x l Hx Hl IH]; intros [|n]; simpl;
    constructor; auto.
Qed.

Lemma py_slice_to_good {A} (P : A -> Prop) (d : Z) (l : list A) :
  Forall P l ->
  Forall P (py_slice_to d l)
  /\ ((0 <= d)%Z -> length (py_slice_to d l) <= Z.to_nat d).
Proof.
  intros H; unfold py_slice_to; destruct (Z.leb_spec 0 d); split;
    try (apply Forall_take; exact H); try lia.
  intros _; apply firstn_le_length.
Qed.

(** A non-empty result of [cached_serp] is made of the items of the
    response: the organic ones, then cut at the depth. *)
Lemma serp_of_response_items (r : response) (d : Z) (l : list pyval) :
  serp_of_response r d = Ok l ->
  l = [] \/ exists rs, response_items r rs
                     /\ l = py_slice_to d (filter is_organic rs).
Proof.
  unfold serp_of_response, rbind; intros H.
  repeat break_hyp H; try discriminate; apply Ok_inj in H; subst l; auto.
  right; eexists; split.
  - unfold response_items; repeat eexists; eassumption.
  - f_equal; apply organic_only_filter; assumption.
Qed.

Lemma serp_of_response_good (r : response) (d : Z) (l : list pyval) :
  serp_of_response r d = Ok l -> serp_good d l.
Proof.
  intros H; apply serp_of_response_items in H as [->|(rs & _ & ->)].
  - split; [constructor | simpl; lia].
  - apply py_slice_to_good, filter_organic.
Qed.

Lemma cache_hit_in {K V} (eqb : K -> K -> bool) (ttl now : Z) (k : K)
  (c : list (K * (V * Z))) (v : V) :
  cache_hit eqb ttl now k c = Some v ->
  exists k' t, In (k', (v, t)) c /\ eqb k k' = true.
Proof.
  unfold cache_hit; induction c as [|[k' [v' t']] c IH]; simpl;
    [discriminate|].
  destruct (eqb k k') eqn:E.
  - destruct (now <? t' + ttl)%Z; [|discriminate].
    intros H; injection H as <-; exists k', t'; auto.
  - intros H; destruct (IH H) as (k2 & t2 & Hin & Heq).
    exists k2, t2; auto.
Qed.

Lemma serp_key_eqb_depth (a b : serp_key) :
  serp_key_eqb a b = true -> snd a = snd b.
Proof.
  destruct a as [[k c] d], b as [[k' c'] d']; simpl.
  rewrite !andb_true_iff, Z.eqb_eq; intros [_ H]; exact H.
Qed.

Lemma serp_cache_put_ok (k : serp_key) (v : list pyval) (t : Z)
  (c : list (serp_key * (list pyval * Z))) :
  serp_good (snd k) v ->
  Forall (fun e : serp_key * (list pyval * Z) =>
            serp_good (snd (fst e)) (fst (snd e))) c ->
  Forall (fun e : serp_key * (list pyval * Z) =>
            serp_good (snd (fst e)) (fst (snd e)))
    (cache_put serp_key_eqb k (v, t) c).
Proof.
  intros Hv Hc; induction Hc as [|[k' e'] c He Hc IH]; simpl.
  - constructor; [exact Hv | constructor].
  - destruct (serp_key_eqb k k') eqn:E; constructor; auto.
    simpl; rewrite <- (serp_key_eqb_depth _ _ E); exact Hv.
Qed.

(** The invariant of the search cache: what [cached_serp] returns is a good
    value, and the cache it leaves holds good values only. *)
Lemma cached_serp_good (keyword creds : str) (depth : Z)
  (st st' : store) (l : list pyval) :
  serp_cache_ok st ->
  cached_serp keyword creds depth st = (Ok l, st') ->
  serp_good depth l /\ serp_cache_ok st'.
Proof.
  intros Hok H; unfold cached_serp in H.
  apply cache_data_ok in H as [[Hhit ->]|(_ & st1 & Hbody & ->)].
  - split; [|exact Hok].
    apply cache_hit_in in Hhit as (k' & t & Hin & Heq).
    apply serp_key_eqb_depth in Heq; simpl in Heq; subst depth.
    unfold serp_cache_ok in Hok; rewrite Forall_forall in Hok.
    exact (Hok _ Hin).
  - unfold cached_serp_body in Hbody.
    apply bind_ok in Hbody as (r & st2 & Hio & Hlift).
    unfold lift in Hlift; injection Hlift as Hresp <-.
    assert (Hc : serp_cache st2 = serp_cache st).
    { unfold io in Hio.
      destruct (requests_post _ _ _ (world st)) as [r0 w0].
      injection Hio as _ <-; reflexivity. }
    apply serp_of_response_good in Hresp; split; [exact Hresp|].
    unfold serp_cache_ok, set_serp_cache; simpl.
    apply serp_cache_put_ok; [exact Hresp|].
    rewrite Hc; exact Hok.
Qed.

Lemma serp_key_eqb_refl (k : serp_key) : serp_key_eqb k k = true.
Proof.
  destruct k as [[kw c] d]; simpl.
  rewrite !str_eqb_refl, Z.eqb_refl; reflexivity.
Qed.

(** Caching: after a call that reached the API and returned, a call with
    the same arguments less than 3600 seconds later returns the same value
    and leaves the world alone: no request is sent. *)
Lemma cached_serp_within_ttl (keyword creds : str) (depth : Z)
  (st st' st2 : store) (l : list pyval) :
  cache_hit serp_key_eqb 3600 (clock (world st)) (keyword, creds, depth)
    (serp_cache st) = None ->
  cached_serp keyword creds depth st = (Ok l, st') ->
  serp_cache st2 = serp_cache st' ->
  (clock (world st2) < clock (world st') + 3600)%Z ->
  cached_serp keyword creds depth st2 = (Ok l, st2).
Proof.
  intros Hmiss H Hcache Hnow; unfold cached_serp in *.
  pose proof H as Hhash; apply cache_data_hashes in Hhash.
  apply cache_data_ok in H as [[Hhit _]|(_ & st1 & _ & ->)];
    [congruence|].
  unfold cache_data; rewrite Hhash, Hcache; simpl in *.
  rewrite cache_hit_put; [reflexivity | apply serp_key_eqb_refl | exact Hnow].
Qed.


(** *** The invariant holds of every store the script reaches *)

Lemma preserves_ret {A} (P : store -> Prop) (a : A) : preserves P (ret a).
Proof. intros st H; exact H. Qed.

Lemma preserves_lift {A} (P : store -> Prop) (r : result A) :
  preserves P (lift r).
Proof. intros st H; exact H. Qed.

Lemma preserves_bind {A B} (P : store -> Prop) (m : M A) (k : A -> M B) :
  preserves P m -> (forall a, preserves P (k a)) -> preserves P (bind m k).
Proof.
  intros Hm Hk st H; unfold bind.
  specialize (Hm st H); destruct (m st) as [[a|e] st1]; simpl in Hm.
  - apply Hk; exact Hm.
  - exact Hm.
Qed.

Lemma preserves_foldM {A B} (P : store -> Prop) (f : A -> B -> M A)
  (l : list B) :
  (forall a x, preserves P (f a x)) -> forall a, preserves P (foldM f a l).
Proof.
  intros Hf; induction l as [|x l IH]; intros a; simpl.
  - apply preserves_ret.
  - apply preserves_bind; [apply Hf | exact IH].
Qed.

Lemma serp_ok_io {A} (f : World -> result A * World) :
  preserves serp_cache_ok (io f).
Proof.
  intros st H; unfold io; destruct (f (world st)); exact H.
Qed.

Lemma serp_ok_cached_serp (keyword creds : str) (depth : Z) :
  preserves serp_cache_ok (cached_serp keyword creds depth).
Proof.
  intros st Hok.
  destruct (cached_serp keyword creds depth st) as [[l|e] st'] eqn:E.
  - exact (proj2 (cached_serp_good _ _ _ Hok E)).
  - unfold cached_serp, cache_data in E.
    destruct (serp_key_hashes _); [|injection E as _ <-; exact Hok].
    destruct (cache_hit _ _ _ _ _); [discriminate|].
    destruct (cached_serp_body _ st) as [[v|e0] st1] eqn:Eb; [discriminate|].
    injection E as _ <-.
    unfold cached_serp_body, bind in Eb.
    pose proof (serp_ok_io
      (requests_post serp_url (lit "Basic " ++ creds)
         (serp_payload keyword depth)) Hok) as Hio.
    destruct (io _ st) as [[r|e1] st2]; simpl in Hio.
    + unfold lift in Eb; injection Eb as _ <-; exact Hio.
    + injection Eb as _ <-; exact Hio.
Qed.

Lemma serp_ok_cached_content (url : pyval) (creds : str) :
  preserves serp_cache_ok (cached_content_full url creds).
Proof.
  intros st Hok; unfold cached_content_full, cache_data.
  destruct (content_key_hashes _); [|exact Hok].
  destruct (cache_hit _ _ _ _ _); [exact Hok|].
  assert (Hb : serp_cache_ok (snd (cached_content_full_body (url, creds) st))).
  { unfold cached_content_full_body.
    apply preserves_bind; [apply serp_ok_io | intros; apply preserves_lift |].
    exact Hok. }
  destruct (cached_content_full_body (url, creds) st) as [[v|e] st1];
    exact Hb.
Qed.

Lemma serp_ok_process_topic (optimizer : planner) (f : form)
  (rows : list row) (topic : str) :
  preserves serp_cache_ok (process_topic optimizer f rows topic).
Proof.
  unfold process_topic, get_serp_results.
  apply preserves_bind; [apply serp_ok_cached_serp|]; intros serp.
  apply preserves_bind.
  { apply preserves_foldM; intros [txt urls] r; unfold add_source.
    apply preserves_bind; [apply preserves_lift|]; intros url.
    apply preserves_bind; [apply preserves_lift|]; intros url'.
    apply preserves_bind; [|intros; apply preserves_ret].
    unfold extract_text.
    apply preserves_bind; [apply serp_ok_cached_content|].
    intros; apply preserves_lift. }
  intros [txt urls].
  apply preserves_bind.
  { unfold summarize_sources.
    apply preserves_bind; [apply serp_ok_io | intros; apply preserves_ret]. }
  intros summary; apply preserves_bind.
  { unfold generate_posts.
    apply preserves_bind; [apply serp_ok_io | intros; apply preserves_lift]. }
  intros posts; apply preserves_bind; [apply preserves_lift|]; intros ps.
  apply preserves_foldM; intros rows0 p0; unfold add_row.
  apply preserves_bind; [apply preserves_lift|]; intros fo.
  apply preserves_bind; [apply preserves_lift|]; intros c.
  apply preserves_ret.
Qed.

(** The search cache is good when the process starts, and a run of the
    script keeps it good. *)
Lemma serp_cache_ok_init (w : World) : serp_cache_ok (init_store w).
Proof. constructor. Qed.

Lemma serp_ok_plan_rows (f : form) : preserves serp_cache_ok (plan_rows f).
Proof.
  unfold plan_rows; destruct (parse_topics (topic_input f)).
  - apply preserves_lift.
  - apply preserves_foldM; intros; apply serp_ok_process_topic.
Qed.

(** ** The rows of the plan *)

Lemma foldM_add_source (optimizer : planner) (serp : list pyval) :
  forall (acc acc' : str * list pyval) (st st' : store),
    foldM (add_source optimizer) acc serp st = (Ok acc', st') ->
    exists urls,
      rmap (fun r => getitem_str r (lit "url")) serp = Ok urls
      /\ snd acc' = snd acc ++ urls.
Proof.
  induction serp as [|r serp IH]; intros acc acc' st st' H; cbn [foldM] in H.
  - apply ret_ok in H as [-> _]; exists []; rewrite app_nil_r; auto.
  - apply bind_ok in H as (acc1 & st1 & Hstep & Hrest).
    destruct acc as [txt urls0]; unfold add_source in Hstep.
    apply bind_ok in Hstep as (url & st2 & Hurl & Hstep).
    apply bind_ok in Hstep as (url' & st3 & _ & Hstep).
    apply bind_ok in Hstep as (t & st4 & _ & Hstep).
    apply ret_ok in Hstep as [-> _].
    apply lift_ok in Hurl as [Hurl _].
    destruct (IH _ _ _ _ Hrest) as (urls & Hurls & Hacc).
    exists (url :: urls); cbn [rmap]; unfold rbind.
    rewrite Hurl, Hurls; split; [reflexivity|].
    rewrite Hacc; simpl; rewrite <- app_assoc; reflexivity.
Qed.

Lemma py_strip_ok (p : pyval) (c : str) :
  py_strip p = Ok c -> exists s, p = PStr s /\ c = strip s.
Proof.
  destruct p; simpl; try discriminate.
  intros H; apply Ok_inj in H; eauto.
Qed.

Lemma foldM_add_row (topic : str) (urls : list pyval) (ps : list pyval) :
  forall (rows rows' : list row) (st st' : store),
    foldM (add_row topic urls) rows ps st = (Ok rows', st') ->
    exists strs fo,
      ps = map PStr strs
      /\ (strs = [] \/ py_join (lit ", ") urls = Ok fo)
      /\ rows' = rows ++ map (plan_row topic fo) strs.
Proof.
  induction ps as [|p ps IH]; intros rows rows' st st' H; cbn [foldM] in H.
  - apply ret_ok in H as [-> _]; exists [], []; rewrite app_nil_r; auto.
  - apply bind_ok in H as (rows1 & st1 & Hstep & Hrest).
    unfold add_row in Hstep.
    apply bind_ok in Hstep as (fo & st2 & Hjoin & Hstep).
    apply bind_ok in Hstep as (c & st3 & Hstrip & Hstep).
    apply ret_ok in Hstep as [-> _].
    apply lift_ok in Hjoin as [Hjoin _]; apply lift_ok in Hstrip as [Hstrip _].
    apply py_strip_ok in Hstrip as (s & -> & ->).
    destruct (IH _ _ _ _ Hrest) as (strs & fo' & -> & Hfo & ->).
    exists (s :: strs), fo; split; [reflexivity|split; [right; exact Hjoin|]].
    rewrite <- app_assoc; f_equal; simpl; f_equal.
    destruct Hfo as [->|Hfo]; [reflexivity|].
    rewrite Hjoin in Hfo; apply Ok_inj in Hfo; subst; reflexivity.
Qed.

(** The loop over the posts leaves the store alone. *)
Lemma foldM_add_row_store (topic : str) (urls : list pyval)
  (ps : list pyval) :
  forall (rows rows' : list row) (st st' : store),
    foldM (add_row topic urls) rows ps st = (Ok rows', st') -> st' = st.
Proof.
  induction ps as [|p ps IH]; intros rows rows' st st' H; cbn [foldM] in H.
  - apply ret_ok in H as [_ ->]; reflexivity.
  - apply bind_ok in H as (rows1 & st1 & Hstep & Hrest).
    unfold add_row in Hstep.
    apply bind_ok in Hstep as (fo & st2 & Hjoin & Hstep).
    apply bind_ok in Hstep as (c & st3 & Hstrip & Hstep).
    apply ret_ok in Hstep as [_ ->].
    apply lift_ok in Hjoin as [_ ->]; apply lift_ok in Hstrip as [_ ->].
    eauto.
Qed.

(** One turn of the loop over the topics appends one row per element of
    what [generate_posts] returned. *)
Lemma process_topic_rows (optimizer : planner) (f : form)
  (rows rows' : list row) (topic : str) (st st' : store) :
  process_topic optimizer f rows topic st = (Ok rows', st') ->
  exists serp urls summary posts st1 st2 strs fo,
    get_serp_results optimizer (build_query f topic) st = (Ok serp, st1)
    /\ rmap (fun r => getitem_str r (lit "url")) serp = Ok urls
    /\ generate_posts optimizer (business f) (sector f) topic (brief f)
         summary (n_posts f) st2 = (Ok posts, st')
    /\ py_iter posts = Ok (map PStr strs)
    /\ (strs = [] \/ py_join (lit ", ") urls = Ok fo)
    /\ rows' = rows ++ map (plan_row topic fo) strs.
Proof.
  unfold process_topic; intros H.
  apply bind_ok in H as (serp & st1 & Hserp & H).
  apply bind_ok in H as ([txt urls] & st2 & Hsrc & H).
  apply bind_ok in H as (summary & st3 & _ & H).
  apply bind_ok in H as (posts & st4 & Hposts & H).
  apply bind_ok in H as (ps & st5 & Hiter & H).
  apply lift_ok in Hiter as [Hiter ->].
  pose proof H as Hst; apply foldM_add_row in H as (strs & fo & -> & Hfo & ->).
  apply foldM_add_source in Hsrc as (us & Hus & Hacc); simpl in Hacc; subst us.
  apply foldM_add_row_store in Hst; subst st'.
  exists serp, urls, summary, posts, st1, st3, strs, fo; auto 10.
Qed.

Lemma foldM_process_topic (optimizer : planner) (f : form)
  (all topics : list str) :
  incl topics all ->
  forall (rows rows' : list row) (st st' : store),
    Forall (fun r => data_pubblicazione r = [] /\ immagine r = []
                     /\ In (argomento r) all) rows ->
    foldM (process_topic optimizer f) rows topics st = (Ok rows', st') ->
    Forall (fun r => data_pubblicazione r = [] /\ immagine r = []
                     /\ In (argomento r) all) rows'.
Proof.
  induction topics as [|t topics IH]; intros Hincl rows rows' st st' Hrows H;
    cbn [foldM] in H.
  - apply ret_ok in H as [-> _]; exact Hrows.
  - apply bind_ok in H as (rows1 & st1 & Hstep & Hrest).
    apply (IH (fun x Hx => Hincl x (or_intror Hx)) rows1 rows' st1 st');
      [|exact Hrest].
    apply process_topic_rows in Hstep
      as (serp & urls & summary & posts & st2 & st3 & strs & fo & Hstep).
    destruct Hstep as (_ & _ & _ & _ & _ & ->).
    apply Forall_app; split; [exact Hrows|].
    apply Forall_forall; intros r Hr; apply in_map_iff in Hr as (p & <- & _).
    simpl; repeat split; apply Hincl; left; reflexivity.
Qed.

(** C7: every row of a plan has an empty [Data pubblicazione] and an empty
    [Immagine], and a topic of the input as its [Argomento]; and one turn of
    the loop over the topics appends exactly one row per post that
    [generate_posts] returned, in order, each with the topic of the turn as
    [Argomento] and, as [Fonte], the URLs of the results the search step
    returned for the topic, joined with a comma and a space. *)
Theorem plan_rows_shape (f : form) :
  (forall (st st' : store) (rows : list row),
     plan_rows f st = (Ok rows, st') ->
     Forall (fun r => data_pubblicazione r = [] /\ immagine r = []
                      /\ In (argomento r) (parse_topics (topic_input f)))
       rows)
  /\ (forall (optimizer : planner) (rows rows' : list row) (topic : str)
        (st st' : store),
       process_topic optimizer f rows topic st = (Ok rows', st') ->
       exists serp urls summary posts st1 st2 strs fo,
         get_serp_results optimizer (build_query f topic) st = (Ok serp, st1)
         /\ rmap (fun r => getitem_str r (lit "url")) serp = Ok urls
         /\ generate_posts optimizer (business f) (sector f) topic (brief f)
              summary (n_posts f) st2 = (Ok posts, st')
         /\ py_iter posts = Ok (map PStr strs)
         /\ (strs = [] \/ py_join (lit ", ") urls = Ok fo)
         /\ rows' = rows ++ map (plan_row topic fo) strs
         /\ length rows' = length rows + length strs).
Proof.
  split.
  - intros st st' rows H; unfold plan_rows in H.
    destruct (parse_topics (topic_input f)) as [|t ts] eqn:E.
    + unfold lift in H; discriminate.
    + eapply foldM_process_topic; [apply incl_refl | constructor | exact H].
  - intros optimizer rows rows' topic st st' H.
    apply process_topic_rows in H
      as (serp & urls & summary & posts & st1 & st2 & strs & fo & H).
    destruct H as (H1 & H2 & H3 & H4 & H5 & ->).
    exists serp, urls, summary, posts, st1, st2, strs, fo.
    repeat split; auto.
    rewrite length_app, length_map; reflexivity.
Qed.

(** ** The topics of a run *)

(** C8: the topics the script processes are the lines of the input that are
    not blank, each stripped, in the order of the input and as often as they
    occur, the input being cut at its line feeds and nowhere else.  None of
    them is empty or whitespace only; when none is left the script stops;
    and every row of a plan carries one of them as its [Argomento]. *)
Theorem topics_not_blank (f : form) :
  Forall (fun t => forallb isspace t = false /\ strip t = t)
    (parse_topics (topic_input f))
  /\ (exists lines,
        topic_input f = join [10%N] lines
        /\ Forall (fun l => ~ In 10%N l) lines)
  /\ (forall lines,
        topic_input f = join [10%N] lines ->
        Forall (fun l => ~ In 10%N l) lines ->
        parse_topics (topic_input f)
        = map strip (filter (fun l => negb (forallb isspace l)) lines))
  /\ (parse_topics (topic_input f) = [] ->
      forall st, plan_rows f st = (Raise StopException, st))
  /\ (forall st st' rows,
        plan_rows f st = (Ok rows, st') ->
        Forall (fun r => In (argomento r) (parse_topics (topic_input f))
                         /\ forallb isspace (argomento r) = false)
          rows).
Proof.
  assert (Hnb : Forall (fun t => forallb isspace t = false /\ strip t = t)
                  (parse_topics (topic_input f))).
  { unfold parse_topics.
    induction (split_lines (topic_input f)) as [|l ls IH]; simpl;
      [constructor|].
    destruct (nonempty (strip l)) eqn:E; [|exact IH].
    constructor; [|exact IH].
    split; [apply strip_not_blank; exact E | apply strip_idem]. }
  split; [exact Hnb|split; [|split; [|split]]].
  - exists (split_lines (topic_input f)); split.
    + symmetry; apply split_lines_join.
    + apply split_lines_no_newline.
  - intros lines -> Hlines; apply parse_topics_lines; exact Hlines.
  - intros E st; unfold plan_rows; rewrite E; reflexivity.
  - intros st st' rows H; unfold plan_rows in H.
    destruct (parse_topics (topic_input f)) as [|t ts] eqn:E.
    + unfold lift in H; discriminate.
    + assert (Hrows : Forall (fun r => data_pubblicazione r = []
                                       /\ immagine r = []
                                       /\ In (argomento r) (t :: ts)) rows).
      { eapply foldM_process_topic;
          [apply incl_refl | constructor | exact H]. }
      rewrite Forall_forall in Hrows, Hnb |- *.
      intros r Hr; destruct (Hrows r Hr) as (_ & _ & Hin).
      split; [exact Hin | exact (proj1 (Hnb _ Hin))].
Qed.

(** * Further properties of the code *)

(** ** The two caches *)

Lemma cache_hit_expired {K V} (eqb : K -> K -> bool) (ttl now t : Z) (k : K)
  (v : V) (c : list (K * (V * Z))) :
  eqb k k = true -> (t + ttl <= now)%Z ->
  cache_hit eqb ttl now k (cache_put eqb k (v, t) c) = None.
Proof.
  intros Hrefl Hnow; unfold cache_hit.
  assert (cache_lookup eqb k (cache_put eqb k (v, t) c) = Some (v, t)) as ->.
  { induction c as [|[k' e'] c IH]; simpl.
    - rewrite Hrefl; reflexivity.
    - destruct (eqb k k') eqn:E; simpl; rewrite E; [reflexivity | exact IH]. }
  apply Z.ltb_ge in Hnow; rewrite Hnow; reflexivity.
Qed.

Lemma serp_key_eqb_eq (a b : serp_key) : serp_key_eqb a b = true <-> a = b.
Proof.
  destruct a as [[k c] d], b as [[k' c'] d']; simpl.
  rewrite !andb_true_iff, !str_eqb_eq, Z.eqb_eq.
  split; [intros [[-> ->] ->]; reflexivity | intros H; inversion H; auto].
Qed.

(** Storing under one key changes no lookup under another. *)
Lemma serp_cache_put_other (k k' : serp_key) (e : list pyval * Z)
  (c : list (serp_key * (list pyval * Z))) :
  k' <> k ->
  cache_lookup serp_key_eqb k' (cache_put serp_key_eqb k e c)
  = cache_lookup serp_key_eqb k' c.
Proof.
  intros Hne; induction c as [|[k1 e1] c IH]; simpl.
  - destruct (serp_key_eqb k' k) eqn:E; [|reflexivity].
    apply serp_key_eqb_eq in E; contradiction.
  - destruct (serp_key_eqb k k1) eqn:E; simpl.
    + apply serp_key_eqb_eq in E; subst k1.
      destruct (serp_key_eqb k' k) eqn:E'; [|reflexivity].
      apply serp_key_eqb_eq in E'; contradiction.
    + rewrite IH; reflexivity.
Qed.

Lemma pyval_eqb_refl : forall v : pyval, pyval_eqb v v = true.
Proof.
  fix IH 1; intros [ |b|z|f|s|l|d]; simpl.
  - reflexivity.
  - apply Bool.eqb_reflx.
  - apply Z.eqb_refl.
  - destruct f; simpl; rewrite ?Bool.eqb_reflx, ?Pos.eqb_refl, ?Z.eqb_refl;
      reflexivity.
  - apply str_eqb_refl.
  - induction l as [|v l IHl]; [reflexivity|].
    rewrite IH, IHl; reflexivity.
  - induction d as [|[k v] d IHd]; [reflexivity|].
    rewrite str_eqb_refl, IH, IHd; reflexivity.
Qed.

Lemma content_key_eqb_refl (k : content_key) : content_key_eqb k k = true.
Proof.
  unfold content_key_eqb; rewrite pyval_eqb_refl, str_eqb_refl; reflexivity.
Qed.

(** What a call of [cached_serp] that reaches the API does to the store. *)
Lemma cached_serp_miss_store (keyword creds : str) (depth : Z)
  (st st' : store) (l : list pyval) :
  cache_hit serp_key_eqb 3600 (clock (world st)) (keyword, creds, depth)
    (serp_cache st) = None ->
  cached_serp keyword creds depth st = (Ok l, st') ->
  serp_cache st'
  = cache_put serp_key_eqb (keyword, creds, depth) (l, clock (world st'))
      (serp_cache st)
  /\ content_cache st' = content_cache st.
Proof.
  intros Hmiss H; unfold cached_serp in H.
  apply cache_data_ok in H as [[Hhit _]|(_ & st1 & Hbody & ->)];
    [congruence|].
  unfold cached_serp_body in Hbody.
  apply bind_ok in Hbody as (r & st2 & Hio & Hlift).
  apply lift_ok in Hlift as [_ ->].
  unfold io in Hio; destruct (requests_post _ _ _ (world st)) as [r0 w0].
  injection Hio as _ <-; simpl; auto.
Qed.

(** X1: after a call of [cached_serp] that reached the API and returned, a
    call with the same arguments made less than 3600 seconds after the value
    was stored returns the same list and leaves the store as it is, the world
    included: no request is sent, whatever the API would answer now. *)
Theorem cached_serp_reuses_result (keyword creds : str) (depth : Z)
  (st st' st2 : store) (l : list pyval) :
  cache_hit serp_key_eqb 3600 (clock (world st)) (keyword, creds, depth)
    (serp_cache st) = None ->
  cached_serp keyword creds depth st = (Ok l, st') ->
  serp_cache st2 = serp_cache st' ->
  (clock (world st2) < clock (world st') + 3600)%Z ->
  cached_serp keyword creds depth st2 = (Ok l, st2).
Proof.
  intros Hmiss H Hcache Hnow.
  edestruct cached_serp_miss_store as [Hput _]; [exact Hmiss | exact H |].
  pose proof H as Hhash; apply cached_serp_hashes in Hhash.
  unfold cached_serp, cache_data.
  rewrite Hhash, Hcache, Hput, cache_hit_put;
    [reflexivity | apply serp_key_eqb_refl | exact Hnow].
Qed.

(** X2: a failure is cached like a result.  When the call reaches the API,
    its arguments hashing and the cache holding no live entry, and the
    response has a status other than 200, the empty list is stored, and for
    the next 3600 seconds a call with the same arguments returns the empty
    list without asking the API again. *)
Theorem cached_serp_failure_is_cached (keyword creds : str) (depth : Z)
  (st st2 : store) (r : response) (w : World) :
  serp_key_hashes (keyword, creds, depth) = true ->
  cache_hit serp_key_eqb 3600 (clock (world st)) (keyword, creds, depth)
    (serp_cache st) = None ->
  requests_post serp_url (lit "Basic " ++ creds) (serp_payload keyword depth)
    (world st) = (Ok r, w) ->
  status_code r <> 200%Z ->
  serp_cache st2 = serp_cache (snd (cached_serp keyword creds depth st)) ->
  (clock (world st2) < clock w + 3600)%Z ->
  cached_serp keyword creds depth st2 = (Ok [], st2).
Proof.
  intros Hhash Hmiss Hpost Hstatus Hcache Hnow.
  assert (Hrun : cached_serp keyword creds depth st
                 = (Ok [],
                    set_serp_cache
                      (cache_put serp_key_eqb (keyword, creds, depth)
                         ([], clock w) (serp_cache st))
                      {| world := w; serp_cache := serp_cache st;
                         content_cache := content_cache st |})).
  { unfold cached_serp; rewrite cache_data_miss by assumption.
    erewrite cached_serp_body_run by exact Hpost.
    unfold serp_of_response.
    destruct (Z.eqb_spec (status_code r) 200); [contradiction|reflexivity]. }
  rewrite Hrun in Hcache; simpl in Hcache.
  unfold cached_serp, cache_data.
  rewrite Hhash, Hcache, cache_hit_put;
    [reflexivity | apply serp_key_eqb_refl | exact Hnow].
Qed.

(** X3: an exception is not cached.  When [cached_serp] or
    [cached_content_full] raises, be it in the hashing of the arguments, in
    the request or in the handling of the response, both caches are what
    they were. *)
Theorem cached_call_raise_not_stored (keyword creds : str) (depth : Z)
  (url : pyval) (st : store) :
  (forall e st', cached_serp keyword creds depth st = (Raise e, st') ->
     serp_cache st' = serp_cache st /\ content_cache st' = content_cache st)
  /\ (forall e st', cached_content_full url creds st = (Raise e, st') ->
        serp_cache st' = serp_cache st
        /\ content_cache st' = content_cache st).
Proof.
  split; intros e st' H.
  - unfold cached_serp, cache_data in H.
    destruct (serp_key_hashes _); [|injection H as _ <-; auto].
    destruct (cache_hit _ _ _ _ _); [discriminate|].
    destruct (cached_serp_body _ st) as [[v|e0] st1] eqn:Eb; [discriminate|].
    injection H as _ <-.
    unfold cached_serp_body, bind, io in Eb.
    destruct (requests_post _ _ _ (world st)) as [[r|e1] w0];
      unfold lift in Eb; injection Eb as _ <-; simpl; auto.
  - unfold cached_content_full, cache_data in H.
    destruct (content_key_hashes _); [|injection H as _ <-; auto].
    destruct (cache_hit _ _ _ _ _); [discriminate|].
    destruct (cached_content_full_body _ st) as [[v|e0] st1] eqn:Eb;
      [discriminate|].
    injection H as _ <-.
    unfold cached_content_full_body, bind, io in Eb.
    destruct (requests_post _ _ _ (world st)) as [[r|e1] w0];
      unfold lift in Eb; injection Eb as _ <-; simpl; auto.
Qed.

(** X4: an entry expires.  Once the clock reads 3600 seconds or more past
    the time a value was stored, a call with the same arguments reaches the
    API again and returns what it makes of the new response. *)
Theorem cached_serp_expires (keyword creds : str) (depth : Z)
  (st st' st2 : store) (l : list pyval) (r : response) (w : World) :
  cache_hit serp_key_eqb 3600 (clock (world st)) (keyword, creds, depth)
    (serp_cache st) = None ->
  cached_serp keyword creds depth st = (Ok l, st') ->
  serp_cache st2 = serp_cache st' ->
  (clock (world st') + 3600 <= clock (world st2))%Z ->
  requests_post serp_url (lit "Basic " ++ creds) (serp_payload keyword depth)
    (world st2) = (Ok r, w) ->
  fst (cached_serp keyword creds depth st2) = serp_of_response r depth.
Proof.
  intros Hmiss H Hcache Hnow Hpost.
  edestruct cached_serp_miss_store as [Hput _]; [exact Hmiss | exact H |].
  eapply cached_serp_miss; [eapply cached_serp_hashes; exact H | |exact Hpost].
  rewrite Hcache, Hput.
  apply cache_hit_expired; [apply serp_key_eqb_refl | exact Hnow].
Qed.

(** X5: the entries of the search cache are kept apart by keyword,
    credentials and depth.  A call that stores its result changes no answer
    the cache gives for any other triple, at any time. *)
Theorem cached_serp_keys_separate (keyword creds : str) (depth : Z)
  (st st' : store) (l : list pyval) (k' : serp_key) (now : Z) :
  cache_hit serp_key_eqb 3600 (clock (world st)) (keyword, creds, depth)
    (serp_cache st) = None ->
  cached_serp keyword creds depth st = (Ok l, st') ->
  k' <> (keyword, creds, depth) ->
  cache_hit serp_key_eqb 3600 now k' (serp_cache st')
  = cache_hit serp_key_eqb 3600 now k' (serp_cache st).
Proof.
  intros Hmiss H Hne.
  edestruct cached_serp_miss_store as [Hput _]; [exact Hmiss | exact H |].
  unfold cache_hit; rewrite Hput, serp_cache_put_other by exact Hne.
  reflexivity.
Qed.

(** ** The content extractor, further *)

Lemma cached_content_miss (url : pyval) (creds : str) (st : store)
  (r : response) (w : World) :
  content_key_hashes (url, creds) = true ->
  cache_hit content_key_eqb 3600 (clock (world st)) (url, creds)
    (content_cache st) = None ->
  requests_post content_url (lit "Basic " ++ creds) (content_payload url)
    (world st) = (Ok r, w) ->
  cached_content_full url creds st
  = match content_of_response r with
    | Ok v =>
        (Ok v,
         set_content_cache
           (cache_put content_key_eqb (url, creds) (v, clock w)
              (content_cache st))
           {| world := w; serp_cache := serp_cache st;
              content_cache := content_cache st |})
    | Raise e =>
        (Raise e, {| world := w; serp_cache := serp_cache st;
                     content_cache := content_cache st |})
    end.
Proof.
  intros Hhash Hmiss Hpost; unfold cached_content_full.
  rewrite cache_data_miss by assumption.
  unfold cached_content_full_body, bind.
  rewrite (io_run _ _ Hpost); unfold lift.
  destruct (content_of_response r); reflexivity.
Qed.

(** X6: [extract_text] swallows a bad HTTP status and nothing else.  A URL
    that does not hash, because a string in it holds a lone surrogate, makes
    it raise [UnicodeEncodeError] before any request is sent: the store, with
    the world in it, is what it was.  On a call that reaches the content API,
    its arguments hashing and the cache holding no live entry, a response
    with a status other than 200 gives the empty string; a response with
    status 200 whose body is no JSON text makes [extract_text] raise what
    [response.json()] raises; and an exception of [requests.post] itself goes
    through as well. *)
Theorem extract_text_http (self : planner) (url : pyval) (st : store) :
  (content_key_hashes (url, encoded_credentials self) = false ->
   extract_text self url st = (Raise UnicodeEncodeError, st))
  /\ (content_key_hashes (url, encoded_credentials self) = true ->
      cache_hit content_key_eqb 3600 (clock (world st))
        (url, encoded_credentials self) (content_cache st) = None ->
      (forall r w,
         requests_post content_url
           (lit "Basic " ++ encoded_credentials self)
           (content_payload url) (world st) = (Ok r, w) ->
         (status_code r <> 200%Z -> fst (extract_text self url st) = Ok [])
         /\ (forall e, status_code r = 200%Z ->
               json_loads int_max_str_digits (text r) = Raise e ->
               fst (extract_text self url st) = Raise e))
      /\ (forall e w,
            requests_post content_url
              (lit "Basic " ++ encoded_credentials self)
              (content_payload url) (world st) = (Raise e, w) ->
            fst (extract_text self url st) = Raise e)).
Proof.
  split.
  { intros Hhash; unfold extract_text, bind, cached_content_full.
    rewrite cache_data_unhashable by exact Hhash; reflexivity. }
  intros Hhash Hmiss; split.
  - intros r w Hpost; unfold extract_text, bind.
    rewrite (cached_content_miss st Hhash Hmiss Hpost).
    unfold content_of_response; split.
    + intros Hne.
      destruct (Z.eqb_spec (status_code r) 200); [contradiction|reflexivity].
    + intros e -> He; simpl; rewrite He; reflexivity.
  - intros e w Hpost; unfold extract_text, bind, cached_content_full.
    rewrite cache_data_miss by assumption.
    unfold cached_content_full_body, bind.
    rewrite (io_run _ _ Hpost); reflexivity.
Qed.

(** X7: after a call of [extract_text] that reached the content API and
    returned, a call for the same URL made less than 3600 seconds after the
    response was stored returns the same text and sends no request. *)
Theorem extract_text_reuses_result (self : planner) (url : pyval)
  (st st' st2 : store) (s : str) :
  cache_hit content_key_eqb 3600 (clock (world st))
    (url, encoded_credentials self) (content_cache st) = None ->
  extract_text self url st = (Ok s, st') ->
  content_cache st2 = content_cache st' ->
  (clock (world st2) < clock (world st') + 3600)%Z ->
  extract_text self url st2 = (Ok s, st2).
Proof.
  intros Hmiss H Hcache Hnow; unfold extract_text in *.
  apply bind_ok in H as (data & st1 & Hfull & Hlift).
  apply lift_ok in Hlift as [Htext ->].
  pose proof Hfull as Hhash; apply cached_content_hashes in Hhash.
  unfold cached_content_full in Hfull.
  apply cache_data_ok in Hfull as [[Hhit _]|(_ & st0 & Hbody & ->)];
    [congruence|].
  unfold bind, cached_content_full, cache_data.
  rewrite Hhash, Hcache; simpl.
  rewrite cache_hit_put; [|apply content_key_eqb_refl | exact Hnow].
  unfold lift; rewrite Htext; reflexivity.
Qed.

Lemma add_content_kept (text : str) (c : pyval) (text' : str) :
  add_content text c = Ok text' ->
  text' = text ++ spaced (match kept_text c with Some s => [s] | None => [] end).
Proof.
  unfold add_content, kept_text, spaced, py_get, getitem_str, dict_get_or, rbind.
  destruct c as [ | | | | | |d]; simpl;
    try (intros H; apply Ok_inj in H; subst; rewrite app_nil_r; reflexivity).
  destruct (dict_get (lit "text") d) as [v|] eqn:E; simpl in *; rewrite ?E.
  - destruct v as [ |b|z|f|s|l|d']; simpl;
      try (intros H; apply Ok_inj in H; subst; rewrite app_nil_r; reflexivity);
      try (destruct s as [|x s]; simpl; intros H; apply Ok_inj in H; subst;
           rewrite ?app_nil_r; reflexivity).
    + destruct b; simpl; [discriminate|].
      intros H; apply Ok_inj in H; subst; rewrite app_nil_r; reflexivity.
    + destruct (negb (z =? 0)%Z); simpl; [discriminate|].
      intros H; apply Ok_inj in H; subst; rewrite app_nil_r; reflexivity.
    + destruct f; simpl; try discriminate.
      intros H; apply Ok_inj in H; subst; rewrite app_nil_r; reflexivity.
    + destruct l; simpl; [|discriminate].
      intros H; apply Ok_inj in H; subst; rewrite app_nil_r; reflexivity.
    + destruct d'; simpl; [|discriminate].
      intros H; apply Ok_inj in H; subst; rewrite app_nil_r; reflexivity.
  - intros H; apply Ok_inj in H; subst; rewrite app_nil_r; reflexivity.
Qed.

Lemma spaced_app (a b : list str) : spaced (a ++ b) = spaced a ++ spaced b.
Proof. unfold spaced; rewrite map_app, concat_app; reflexivity. Qed.

Lemma add_contents_kept (cs : list pyval) :
  forall text text' : str,
    add_contents text cs = Ok text' ->
    text' = text ++ spaced (kept_texts cs).
Proof.
  induction cs as [|c cs IH]; intros text text' H; cbn [add_contents] in H.
  - apply Ok_inj in H; subst; unfold spaced; simpl.
    rewrite app_nil_r; reflexivity.
  - unfold rbind in H.
    destruct (add_content text c) as [t1|] eqn:E; [|discriminate].
    apply add_content_kept in E; apply IH in H; subst.
    unfold kept_texts; cbn [flat_map].
    rewrite spaced_app, app_assoc; reflexivity.
Qed.

Lemma add_topics_fragments (topics : list pyval) :
  forall text text' : str,
    add_topics text topics = Ok text' ->
    text' = text ++ spaced (page_fragments topics).
Proof.
  induction topics as [|t topics IH]; intros text text' H;
    cbn [add_topics] in H.
  - apply Ok_inj in H; subst; unfold spaced; simpl.
    rewrite app_nil_r; reflexivity.
  - unfold rbind in H.
    destruct (py_get t (lit "primary_content") (PList [])) as [pc|] eqn:Eg;
      [|discriminate].
    destruct (py_iter pc) as [cs|] eqn:Ei; [|discriminate].
    destruct (add_contents text cs) as [t1|] eqn:Ec; [|discriminate].
    apply add_contents_kept in Ec; apply IH in H; subst.
    unfold page_fragments; cbn [flat_map].
    rewrite spaced_app, app_assoc; do 3 f_equal.
    unfold topic_entries; destruct t; try discriminate.
    unfold py_get in Eg; apply Ok_inj in Eg; rewrite Eg, Ei; reflexivity.
Qed.

(** X8: the text [extract_text] returns for a page is its fragments in
    order, each followed by one space, cut to the first 4000 characters.  The
    fragments are the non-empty string [text]s of the objects in the
    [primary_content] of each entry of [main_topic]; every other entry is
    passed over. *)
Theorem extract_text_concatenates (d res0 item0 page : dict)
  (rest rest' topics : list pyval) (s : str) :
  api_status_ok d = true ->
  dict_get_or (lit "result") d (PList []) = PList (PDict res0 :: rest) ->
  dict_get (lit "items") res0 = Some (PList (PDict item0 :: rest')) ->
  dict_get (lit "page_content") item0 = Some (PDict page) ->
  py_iter (dict_get_or (lit "main_topic") page (PList [])) = Ok topics ->
  text_of_data (PDict d) = Ok s ->
  s = firstn 4000 (spaced (page_fragments topics)).
Proof.
  intros Hs Hr Hi Hp Ht H.
  rewrite text_of_dict, Hs in H; cbv zeta in H.
  rewrite Hr, has_first_dict in H; unfold dict_has in H; rewrite Hi in H.
  unfold rbind, getitem_0, getitem_str in H; rewrite Hi in H.
  rewrite has_first_dict in H; unfold dict_has in H; rewrite Hp in H.
  unfold py_get in H; rewrite Ht in H.
  destruct (add_topics [] topics) as [t|] eqn:E; [|discriminate].
  apply Ok_inj in H; subst s.
  apply add_topics_fragments in E; subst t; reflexivity.
Qed.

(** ** The post generator, further *)

(** X9: [generate_posts] does not raise on a text.  When the model returns a
    string, the result is the value under [posts] (or the empty list) if the
    string parses as a JSON object, and the list of the stripped non-empty
    pieces of [re.split] in every other case: a parse error, but also JSON
    that is no object.  When the model returns [None], it raises
    [TypeError]. *)
Theorem generate_posts_outcomes (self : planner) (b s t br : str)
  (sm : pyval) (n : Z) (st : store) (c : option str) (w : World) :
  chat_create (PostsPrompt b s t br sm n) (world st) = (Ok c, w) ->
  match c with
  | Some content =>
      (exists d, json_loads int_max_str_digits content = Ok (PDict d)
                 /\ fst (generate_posts self b s t br sm n st)
                    = Ok (dict_get_or (lit "posts") d (PList [])))
      \/ ((forall d, json_loads int_max_str_digits content <> Ok (PDict d))
          /\ fst (generate_posts self b s t br sm n st)
             = Ok (PList (map PStr
                            (stripped_parts (re_split post_re content)))))
  | None => fst (generate_posts self b s t br sm n st) = Raise TypeError
  end.
Proof.
  intros Hchat; rewrite (generate_posts_run self st Hchat).
  destruct c as [content|]; [|reflexivity].
  unfold posts_of_content, content_value, py_json_loads, try_except, rbind.
  destruct (json_loads int_max_str_digits content) as [v|e] eqn:E.
  - destruct v; try (right; split; [discriminate | reflexivity]).
    left; eexists; split; reflexivity.
  - right; split; [discriminate | reflexivity].
Qed.

Lemma lstrip_suffix (s : str) : exists a, s = a ++ lstrip s.
Proof.
  induction s as [|c s [a IH]]; [exists []; reflexivity|].
  simpl; destruct (isspace c).
  - exists (c :: a); simpl; rewrite <- IH; reflexivity.
  - exists []; reflexivity.
Qed.

Lemma strip_infix (s : str) : exists a b, s = a ++ strip s ++ b.
Proof.
  destruct (lstrip_suffix s) as [a Ha].
  destruct (lstrip_suffix (rev (lstrip s))) as [b Hb].
  exists a, (rev b); unfold strip, rstrip.
  rewrite <- rev_app_distr, <- Hb, rev_involutive; exact Ha.
Qed.

(** No match starts inside a piece of a split. *)
Lemma split_at_pieces (re : regex) (s : str) (l : list str) :
  (forall t, match_here re t <> Some 0) ->
  split_at re s l ->
  Forall (fun p => forall a m b, p = a ++ m ++ b -> ~ in_lang re m) l.
Proof.
  intros Hne H; induction H as [s Hno|p m0 rest l Hno Hm _ IH].
  - constructor; [|constructor].
    intros a m b -> Hin.
    pose proof (match_here_complete Hin b) as Hc.
    specialize (Hno (length a)).
    rewrite skipn_app, skipn_all, Nat.sub_diag in Hno; simpl in Hno.
    unfold match_len in Hno.
    destruct (match_here re (m ++ b)) as [[|k]|] eqn:E;
      [exact (Hne _ E) | | congruence].
    assert (Hlen : length a < length (a ++ m ++ b)).
    { pose proof (match_here_le _ _ E) as Hle.
      rewrite !length_app in *; lia. }
    specialize (Hno Hlen); discriminate.
  - constructor; [|exact IH].
    intros a m b -> Hin.
    pose proof (match_here_complete Hin (b ++ m0 ++ rest)) as Hc.
    specialize (Hno (length a)).
    rewrite <- !app_assoc, skipn_app, skipn_all, Nat.sub_diag in Hno.
    simpl in Hno; unfold match_len in Hno.
    destruct (match_here re (m ++ b ++ m0 ++ rest)) as [[|k]|] eqn:E;
      [exact (Hne _ E) | | congruence].
    destruct m as [|x m].
    { apply (Hne []); destruct (match_here re []) as [[|j]|] eqn:E0;
        [reflexivity | | ].
      - apply match_here_le in E0; simpl in E0; lia.
      - exfalso; exact (match_here_complete Hin [] E0). }
    assert (Hlen : length a < length (a ++ (x :: m) ++ b)).
    { rewrite !length_app; simpl; lia. }
    specialize (Hno Hlen); discriminate.
Qed.

(** X10: no fragment the fallback returns holds a marker: no substring of a
    returned fragment is [POST], whitespace, decimal digits and a colon or a
    hyphen. *)
Theorem fallback_fragments_hold_no_marker (content fragment : str) :
  In fragment (stripped_parts (re_split post_re content)) ->
  forall a m b, fragment = a ++ m ++ b -> ~ in_lang post_re m.
Proof.
  unfold stripped_parts; intros Hin a m b Hcut Hlang.
  apply in_map_iff in Hin as (p & <- & Hp).
  apply filter_In in Hp as [Hp _].
  pose proof (split_at_pieces post_re_not_empty
                (re_split_spec post_re content)) as Hall.
  rewrite Forall_forall in Hall; specialize (Hall p Hp).
  destruct (strip_infix p) as (x & y & Hxy).
  apply (Hall (x ++ a) m (b ++ y)); [|exact Hlang].
  rewrite Hxy at 1; rewrite Hcut, <- !app_assoc; reflexivity.
Qed.

(** X11: the pattern matches exactly where a marker starts: [match_here]
    finds a match at the head of a text if and only if the text starts with
    [POST], any whitespace, at least one decimal digit and a colon or a
    hyphen. *)
Theorem post_re_matches_markers (s : str) :
  match_here post_re s <> None <->
  exists ws ds c rest,
    s = lit "POST" ++ ws ++ ds ++ c :: rest
    /\ forallb isspace ws = true
    /\ ds <> [] /\ forallb isdecimal ds = true
    /\ (c = ch ":" \/ c = ch "-").
Proof.
  split.
  - intros H; destruct (match_here post_re s) as [n|] eqn:E; [|congruence].
    apply match_here_sound in E.
    apply post_re_lang in E as (ws & ds & c & Hm & Hws & Hne & Hds & Hc).
    exists ws, ds, c, (skipn n s); repeat split; auto.
    rewrite <- (firstn_skipn n s) at 1; rewrite Hm.
    rewrite <- !app_assoc; reflexivity.
  - intros (ws & ds & c & rest & -> & Hws & Hne & Hds & Hc).
    assert (Hin : in_lang post_re (lit "POST" ++ ws ++ ds ++ [c])).
    { apply post_re_lang; exists ws, ds, c; auto. }
    pose proof (match_here_complete Hin rest) as H.
    rewrite <- !app_assoc in H; exact H.
Qed.

(** ** The script, further *)

(** X12: the posts are not validated.  A turn of the loop over the topics
    that ends well has appended one row per element Python iterates over in
    what [generate_posts] returned: per element of a list, per character of
    a string, per key of a dict; it cannot end well on any other value. *)
Theorem process_topic_posts_unvalidated (optimizer : planner) (f : form)
  (rows rows' : list row) (topic : str) (st st' : store) :
  process_topic optimizer f rows topic st = (Ok rows', st') ->
  exists summary posts st2,
    generate_posts optimizer (business f) (sector f) topic (brief f)
      summary (n_posts f) st2 = (Ok posts, st')
    /\ match posts with
       | PList l => length rows' = length rows + length l
       | PStr s => length rows' = length rows + length s
       | PDict d => length rows' = length rows + length d
       | _ => False
       end.
Proof.
  intros H; apply process_topic_rows in H
    as (serp & urls & summary & posts & st1 & st2 & strs & fo & H).
  destruct H as (_ & _ & Hgen & Hiter & _ & ->).
  exists summary, posts, st2; split; [exact Hgen|].
  rewrite length_app, length_map.
  destruct posts; simpl in Hiter; try discriminate;
    apply Ok_inj in Hiter;
    apply (f_equal (@length pyval)) in Hiter;
    rewrite !length_map in Hiter; congruence.
Qed.

(** X13: when every line of the topic input is empty or whitespace, the
    script stops with no topic processed: no call is made and the store is
    what it was. *)
Theorem plan_rows_blank_input (f : form) (st : store) :
  Forall (fun line => forallb isspace line = true)
    (split_lines (topic_input f)) ->
  plan_rows f st = (Raise StopException, st).
Proof.
  intros Hblank; unfold plan_rows.
  assert (parse_topics (topic_input f) = []) as ->; [|reflexivity].
  unfold parse_topics.
  induction Hblank as [|l ls Hl _ IH]; [reflexivity|].
  cbn [filter]; rewrite (strip_blank _ Hl); exact IH.
Qed.

Lemma foldM_process_topic_groups (optimizer : planner) (f : form)
  (topics : list str) :
  forall (rows rows' : list row) (st st' : store),
    foldM (process_topic optimizer f) rows topics st = (Ok rows', st') ->
    exists groups,
      rows' = rows ++ concat groups
      /\ Forall2 (fun t g => Forall (fun r => argomento r = t) g)
           topics groups.
Proof.
  induction topics as [|t topics IH]; intros rows rows' st st' H;
    cbn [foldM] in H.
  - apply ret_ok in H as [-> _]; exists []; simpl.
    rewrite app_nil_r; split; [reflexivity | constructor].
  - apply bind_ok in H as (rows1 & st1 & Hstep & Hrest).
    apply process_topic_rows in Hstep
      as (serp & urls & summary & posts & st2 & st3 & strs & fo & Hstep).
    destruct Hstep as (_ & _ & _ & _ & _ & ->).
    destruct (IH _ _ _ _ Hrest) as (groups & -> & Hall).
    exists (map (plan_row t fo) strs :: groups); split.
    + simpl; rewrite <- app_assoc; reflexivity.
    + constructor; [|exact Hall].
      apply Forall_forall; intros r Hr.
      apply in_map_iff in Hr as (p & <- & _); reflexivity.
Qed.

(** X14: the rows of a plan come topic by topic, in the order of the input
    text.  When the input is the lines [lines] joined by line feeds, the plan
    is the concatenation of one group of rows for each line that is not
    blank, the groups in the order of these lines, a line that occurs twice
    having two groups, and each row of a group carries the stripped line of
    its group as [Argomento]. *)
Theorem plan_rows_grouped_by_topic (f : form) (lines : list str)
  (st st' : store) (rows : list row) :
  topic_input f = join [10%N] lines ->
  Forall (fun l => ~ In 10%N l) lines ->
  plan_rows f st = (Ok rows, st') ->
  exists groups,
    rows = concat groups
    /\ Forall2 (fun t g => Forall (fun r => argomento r = t) g)
         (map strip (filter (fun l => negb (forallb isspace l)) lines))
         groups.
Proof.
  intros Hinput Hlines; unfold plan_rows.
  rewrite Hinput, (parse_topics_lines Hlines); intros H.
  destruct (map strip (filter (fun l => negb (forallb isspace l)) lines))
    as [|t ts] eqn:E.
  - unfold lift in H; discriminate.
  - apply foldM_process_topic_groups in H as (groups & -> & Hall).
    exists groups; auto.
Qed.

(** *** The calls of a run *)

Lemma emits_ret {A} (ok : call -> Prop) (a : A) (st : store) :
  emits ok 0 (ret a) st.
Proof. exists []; simpl; rewrite app_nil_r; auto. Qed.

Lemma emits_lift {A} (ok : call -> Prop) (r : result A) (st : store) :
  emits ok 0 (lift r) st.
Proof. exists []; simpl; rewrite app_nil_r; auto. Qed.

Lemma emits_le {A} (ok : call -> Prop) (n n' : nat) (m : M A) (st : store) :
  n <= n' -> emits ok n m st -> emits ok n' m st.
Proof.
  intros Hle (new & Hlog & Hok & Hlen); exists new; repeat split; auto.
  exact (Nat.le_trans _ _ _ Hlen Hle).
Qed.

Lemma emits_post (ok : call -> Prop) (url a : str) (p : pyval) (st : store) :
  logs_calls -> ok (PostCall url a p) ->
  emits ok 1 (io (requests_post url a p)) st.
Proof.
  intros [Hpost _] Hok; exists [PostCall url a p]; unfold io.
  specialize (Hpost url a p (world st)).
  destruct (requests_post url a p (world st)) as [r w]; simpl in *.
  repeat split; auto.
Qed.

Lemma emits_chat (ok : call -> Prop) (p : prompt) (st : store) :
  logs_calls -> ok (ChatCall p) -> emits ok 1 (io (chat_create p)) st.
Proof.
  intros [_ Hchat] Hok; exists [ChatCall p]; unfold io.
  specialize (Hchat p (world st)).
  destruct (chat_create p (world st)) as [r w]; simpl in *.
  repeat split; auto.
Qed.

Lemma emits_bind {A B} (ok : call -> Prop) (n k : nat) (m : M A)
  (f : A -> M B) (st : store) :
  emits ok n m st ->
  (forall a st1, m st = (Ok a, st1) -> emits ok k (f a) st1) ->
  emits ok (n + k) (bind m f) st.
Proof.
  intros (new & Hlog & Hok & Hlen) Hf; unfold emits, bind.
  destruct (m st) as [[a|e] st1] eqn:E; simpl in Hlog.
  - destruct (Hf a st1 eq_refl) as (new' & Hlog' & Hok' & Hlen').
    exists (new ++ new'); cbv beta iota; rewrite Hlog', Hlog, <- app_assoc.
    repeat split; [apply Forall_app; auto|].
    rewrite length_app; exact (Nat.add_le_mono _ _ _ _ Hlen Hlen').
  - exists new; repeat split; auto.
    exact (Nat.le_trans _ _ _ Hlen (Nat.le_add_r n k)).
Qed.

Lemma emits_foldM {A B} (ok : call -> Prop) (k : nat) (f : A -> B -> M A)
  (l : list B) :
  (forall a x st, emits ok k (f a x) st) ->
  forall a st, emits ok (length l * k) (foldM f a l) st.
Proof.
  intros Hf; induction l as [|x l IH]; intros a st; cbn [foldM length].
  - apply emits_ret.
  - simpl; apply emits_bind; [apply Hf | intros; apply IH].
Qed.

Lemma emits_cache_data {K V} (ok : call -> Prop) (n : nat)
  (hashes : K -> bool) (eqb : K -> K -> bool) (get : store -> list (K * (V * Z)))
  (set : list (K * (V * Z)) -> store -> store) (ttl : Z) (body : K -> M V)
  (k : K) (st : store) :
  (forall c s, world (set c s) = world s) ->
  emits ok n (body k) st ->
  emits ok n (cache_data hashes eqb get set ttl body k) st.
Proof.
  intros Hset (new & Hlog & Hok & Hlen); unfold emits, cache_data.
  destruct (hashes k);
    [|exists []; simpl; rewrite app_nil_r; repeat split; auto;
      apply Nat.le_0_l].
  destruct (cache_hit eqb ttl (clock (world st)) k (get st)).
  - exists []; simpl; rewrite app_nil_r; repeat split; auto.
    apply Nat.le_0_l.
  - exists new; destruct (body k st) as [[v|e] st1]; simpl in *;
      rewrite ?Hset; auto.
Qed.

Lemma emits_impl {A} (ok ok' : call -> Prop) (n : nat) (m : M A)
  (st : store) :
  (forall c, ok c -> ok' c) -> emits ok n m st -> emits ok' n m st.
Proof.
  intros Himp (new & Hlog & Hok & Hlen); exists new; repeat split; auto.
  exact (Forall_impl _ Himp Hok).
Qed.

Lemma emits_cached_serp (ok : call -> Prop) (creds keyword : str)
  (depth : Z) (st : store) :
  logs_calls ->
  ok (PostCall serp_url (lit "Basic " ++ creds) (serp_payload keyword depth)) ->
  emits ok 1 (cached_serp keyword creds depth) st.
Proof.
  intros Hlog Hok; unfold cached_serp.
  apply emits_cache_data; [reflexivity|].
  unfold cached_serp_body.
  apply (emits_bind (n := 1) (k := 0)); [|intros; apply emits_lift].
  apply emits_post; assumption.
Qed.

Lemma emits_extract_text (ok : call -> Prop) (self : planner) (url : pyval)
  (st : store) :
  logs_calls ->
  ok (PostCall content_url (lit "Basic " ++ encoded_credentials self)
        (content_payload url)) ->
  emits ok 1 (extract_text self url) st.
Proof.
  intros Hlog Hok; unfold extract_text.
  apply (emits_bind (n := 1) (k := 0)); [|intros; apply emits_lift].
  unfold cached_content_full.
  apply emits_cache_data; [reflexivity|].
  unfold cached_content_full_body.
  apply (emits_bind (n := 1) (k := 0)); [|intros; apply emits_lift].
  apply emits_post; assumption.
Qed.

Lemma emits_process_topic (optimizer : planner) (f : form)
  (rows : list row) (topic : str) (st : store) :
  logs_calls -> serp_cache_ok st ->
  emits (topic_call (encoded_credentials optimizer) f topic) 8
    (process_topic optimizer f rows topic) st.
Proof.
  intros Hlog Hok; unfold process_topic, get_serp_results.
  apply (emits_bind (n := 1) (k := 7)).
  { apply emits_cached_serp; [exact Hlog|].
    split; [reflexivity | left; split; reflexivity]. }
  intros serp st1 Hserp.
  destruct (cached_serp_good _ _ _ Hok Hserp) as [[_ Hlen] _].
  assert (H5 : length serp <= 5) by (apply Hlen; discriminate).
  apply (emits_bind (n := 5) (k := 2)).
  { apply emits_le with (n := length serp * 1);
      [rewrite Nat.mul_1_r; exact H5|].
    apply emits_foldM; intros [txt urls] r st2; unfold add_source.
    apply (emits_bind (n := 0) (k := 1)); [apply emits_lift|]; intros.
    apply (emits_bind (n := 0) (k := 1)); [apply emits_lift|]; intros.
    apply (emits_bind (n := 1) (k := 0)); [|intros; apply emits_ret].
    apply emits_extract_text; [exact Hlog|].
    split; [reflexivity | right; split; [reflexivity | eexists; reflexivity]]. }
  intros [txt urls] st2 _.
  apply (emits_bind (n := 1) (k := 1)).
  { unfold summarize_sources.
    apply (emits_bind (n := 1) (k := 0)); [|intros; apply emits_ret].
    apply emits_chat; [exact Hlog | reflexivity]. }
  intros summary st3 _.
  apply (emits_bind (n := 1) (k := 0)).
  { unfold generate_posts.
    apply (emits_bind (n := 1) (k := 0)); [|intros; apply emits_lift].
    apply emits_chat; [exact Hlog | repeat split]. }
  intros posts st4 _.
  apply (emits_bind (n := 0) (k := 0)); [apply emits_lift|].
  intros ps st5 _.
  apply emits_le with (n := length ps * 0); [rewrite Nat.mul_0_r; auto|].
  apply emits_foldM; intros rows0 p st6; unfold add_row.
  apply (emits_bind (n := 0) (k := 0)); [apply emits_lift|]; intros.
  apply (emits_bind (n := 0) (k := 0)); [apply emits_lift|]; intros.
  apply emits_ret.
Qed.

Lemma emits_topics (optimizer : planner) (f : form) (all topics : list str) :
  logs_calls ->
  (forall t, In t topics -> In t all) ->
  forall (rows : list row) (st : store),
    serp_cache_ok st ->
    emits (fun c => exists t,
             In t all /\ topic_call (encoded_credentials optimizer) f t c)
      (length topics * 8) (foldM (process_topic optimizer f) rows topics) st.
Proof.
  intros Hlog; induction topics as [|t topics IH]; intros Hall rows st Hok;
    cbn [foldM length].
  - apply emits_ret.
  - change (S (length topics) * 8) with (8 + length topics * 8).
    apply emits_bind.
    + apply emits_impl
        with (ok := topic_call (encoded_credentials optimizer) f t);
        [|apply emits_process_topic; assumption].
      intros c Hc; exists t; split; [apply Hall; left; reflexivity | exact Hc].
    + intros rows1 st1 Hstep; apply IH.
      * intros t' Ht'; apply Hall; right; exact Ht'.
      * pose proof (serp_ok_process_topic optimizer f rows t Hok) as H.
        rewrite Hstep in H; exact H.
Qed.

Lemma emits_plan_rows (f : form) (st : store) :
  logs_calls -> serp_cache_ok st ->
  emits (fun c => exists t,
           In t (parse_topics (topic_input f))
           /\ topic_call
                (b64encode (DATAFORSEO_LOGIN ++ lit ":" ++ DATAFORSEO_PASSWORD))
                f t c)
    (length (parse_topics (topic_input f)) * 8) (plan_rows f) st.
Proof.
  intros Hlog Hok; unfold plan_rows.
  destruct (parse_topics (topic_input f)) as [|t ts] eqn:E.
  - apply emits_lift.
  - apply emits_topics; auto.
Qed.

(** X15: a run makes at most eight calls per topic, whether it ends well or
    raises: for each topic at most one search, at most five content
    requests, one per result, and the two calls to the language model. *)
Theorem plan_rows_call_bound (f : form) (st : store) :
  logs_calls -> serp_cache_ok st ->
  exists new,
    log (world (snd (plan_rows f st))) = log (world st) ++ new
    /\ length new <= 8 * length (parse_topics (topic_input f)).
Proof.
  intros Hlog Hok.
  destruct (emits_plan_rows f Hlog Hok) as (new & Hnew & _ & Hlen).
  exists new; split; [exact Hnew|].
  rewrite Nat.mul_comm; exact Hlen.
Qed.

(** X16: every call of a run belongs to a topic of the input.  An HTTP
    request carries the header [Basic] followed by the encoded credentials
    and is either the search for the query of the topic, with the fixed
    locale and device and the depth 5, or the parsing of a URL with
    JavaScript and browser rendering enabled; a prompt is the summary prompt
    of the topic or the posts prompt of the topic with the business, sector,
    brief and number of posts of the form. *)
Theorem plan_rows_requests (f : form) (st : store) :
  logs_calls -> serp_cache_ok st ->
  exists new,
    log (world (snd (plan_rows f st))) = log (world st) ++ new
    /\ Forall (fun c => exists t,
                 In t (parse_topics (topic_input f))
                 /\ topic_call
                      (b64encode
                         (DATAFORSEO_LOGIN ++ lit ":" ++ DATAFORSEO_PASSWORD))
                      f t c)
         new.
Proof.
  intros Hlog Hok.
  destruct (emits_plan_rows f Hlog Hok) as (new & Hnew & Hall & _).
  exists new; auto.
Qed.

(** X17: the search cache only ever holds what [cached_serp] may return:
    lists of organic items no longer than their depth.  This holds when the
    process starts and a run of the script keeps it, however it ends. *)
Theorem search_cache_stays_good (f : form) (w : World) (st : store) :
  Forall (fun e : serp_key * (list pyval * Z) =>
            serp_good (snd (fst e)) (fst (snd e)))
    (serp_cache (init_store w))
  /\ (Forall (fun e : serp_key * (list pyval * Z) =>
                serp_good (snd (fst e)) (fst (snd e)))
        (serp_cache st) ->
      Forall (fun e : serp_key * (list pyval * Z) =>
                serp_good (snd (fst e)) (fst (snd e)))
        (serp_cache (snd (plan_rows f st)))).
Proof.
  split; [constructor|].
  intros H; exact (serp_ok_plan_rows f H).
Qed.

(** ** The password gate *)

Lemma dict_get_set (k : str) (v : pyval) (d : dict) :
  dict_get k (dict_set k v d) = Some v.
Proof.
  induction d as [|[k' v'] d IH]; simpl.
  - rewrite str_eqb_refl; reflexivity.
  - destruct (str_eqb k k') eqn:E; simpl; rewrite E; [reflexivity | exact IH].
Qed.

(** The session the gate works on has the key and the same truth value. *)
Lemma gate_init (ss : dict) :
  is_authenticated
    (if dict_has (lit "authenticated") ss then ss
     else dict_set (lit "authenticated") (PBool false) ss)
  = is_authenticated ss.
Proof.
  unfold dict_has, is_authenticated, dict_get_or.
  destruct (dict_get (lit "authenticated") ss) eqn:E; cbv iota.
  - rewrite E; reflexivity.
  - rewrite dict_get_set; reflexivity.
Qed.

Lemma gate_closed (ss : dict) (pg : page) :
  is_authenticated ss = false ->
  gate ss pg
  = (if entra pg && str_eqb (pwd pg) APP_PASSWORD
     then dict_set (lit "authenticated") (PBool true)
            (if dict_has (lit "authenticated") ss then ss
             else dict_set (lit "authenticated") (PBool false) ss)
     else if dict_has (lit "authenticated") ss then ss
          else dict_set (lit "authenticated") (PBool false) ss,
     Some (if entra pg
           then if str_eqb (pwd pg) APP_PASSWORD then Rerun
                else AskPassword true
           else AskPassword false)).
Proof.
  intros H; unfold gate; cbv zeta; rewrite gate_init, H.
  cbn [negb andb]; cbv iota.
  destruct (entra pg); [|reflexivity].
  destruct (str_eqb (pwd pg) APP_PASSWORD); reflexivity.
Qed.

Lemma gate_open (ss : dict) (pg : page) :
  is_authenticated ss = true -> gate ss pg = (ss, None).
Proof.
  intros H; unfold gate; cbv zeta; rewrite gate_init, H.
  cbn [negb]; cbv iota.
  unfold is_authenticated, dict_get_or, dict_has in *.
  destruct (dict_get (lit "authenticated") ss); [reflexivity|discriminate].
Qed.

(** X19: a run of a session that is not authenticated ends at the gate: it
    asks for the password or reruns, the form is not read, no plan is made
    and the store, with the world in it, is what it was. *)
Theorem gate_blocks_unauthenticated (ss : dict) (pg : page) (st : store) :
  is_authenticated ss = false ->
  snd (main ss pg st) = st
  /\ (snd (fst (main ss pg st)) = Rerun
      \/ exists wrong, snd (fst (main ss pg st)) = AskPassword wrong).
Proof.
  intros H; unfold main; rewrite gate_closed by exact H; simpl.
  split; [reflexivity|].
  destruct (entra pg); [|right; eauto].
  destruct (str_eqb (pwd pg) APP_PASSWORD); [left | right]; eauto.
Qed.

(** X20: only the password opens the gate.  A run turns a session that is
    not authenticated into an authenticated one if and only if the button
    was pressed with the password field equal to the configured password. *)
Theorem gate_opens_on_password_only (ss : dict) (pg : page) (st : store) :
  is_authenticated ss = false ->
  is_authenticated (fst (fst (main ss pg st))) = true
  <-> entra pg = true /\ pwd pg = APP_PASSWORD.
Proof.
  intros H; unfold main; rewrite gate_closed by exact H; simpl.
  destruct (entra pg); simpl.
  - destruct (str_eqb (pwd pg) APP_PASSWORD) eqn:E.
    + apply str_eqb_eq in E; unfold is_authenticated, dict_get_or.
      rewrite dict_get_set; simpl; split; auto.
    + rewrite gate_init, H; split; [discriminate|].
      intros [_ Heq]; apply str_eqb_eq in Heq; congruence.
  - rewrite gate_init, H; split; [discriminate | intros [? _]; discriminate].
Qed.

Lemma main_open (ss : dict) (pg : page) (st : store) :
  is_authenticated ss = true -> fst (fst (main ss pg st)) = ss.
Proof.
  intros H; unfold main; rewrite gate_open by exact H.
  destruct (submit pg); [|reflexivity].
  destruct (plan_rows (fields pg) st); reflexivity.
Qed.

(** X21: without the password there is no way in.  A session that is not
    authenticated stays so through any sequence of runs in none of which the
    button is pressed with the right password, and the store is never
    touched. *)
Theorem gate_stays_closed (pgs : list page) :
  forall (ss : dict) (st : store),
    is_authenticated ss = false ->
    Forall (fun pg => ~ (entra pg = true /\ pwd pg = APP_PASSWORD)) pgs ->
    is_authenticated (fst (runs ss pgs st)) = false
    /\ snd (runs ss pgs st) = st.
Proof.
  induction pgs as [|pg pgs IH]; intros ss st H Hall; cbn [runs].
  - auto.
  - inversion Hall as [|? ? Hpg Hrest]; subst.
    unfold main; rewrite gate_closed by exact H; cbv beta iota.
    destruct (entra pg && str_eqb (pwd pg) APP_PASSWORD) eqn:E.
    + exfalso; apply Hpg.
      apply andb_true_iff in E; destruct E as [He Hp].
      apply str_eqb_eq in Hp; auto.
    + apply IH; [|exact Hrest].
      rewrite gate_init; exact H.
Qed.

(** X22: there is no way out either.  Once a session is authenticated, the
    script never changes the session again: it stays authenticated through
    every later run, whatever the widgets return. *)
Theorem gate_stays_open (pgs : list page) :
  forall (ss : dict) (st : store),
    is_authenticated ss = true ->
    fst (runs ss pgs st) = ss.
Proof.
  induction pgs as [|pg pgs IH]; intros ss st H; cbn [runs].
  - reflexivity.
  - pose proof (@main_open ss pg st H) as Hss.
    destruct (main ss pg st) as [[ss' o] st']; simpl in Hss; subst ss'.
    apply IH; exact H.
Qed.

End Planner.

(** * Concrete runs

    The theorems above at the scripted world: the process starts with empty
    caches at time 0, the interpreter has its default digit limit, and no
    character beyond ASCII counts as a decimal digit. *)

Lemma cached_serp_failure_empty_witness :
  fst (cached_serp 4300
         (scripted_post
            (with_serp (Ok {| status_code := 503; text := [] |}) demo_script))
         scripted_clock demo_topic demo_credentials 5 (init_store 0))
  = Ok []
  /\ fst (cached_serp 4300
            (scripted_post
               (with_serp (http_ok (jlit "{'status_code': 40101}"))
                  demo_script))
            scripted_clock demo_topic demo_credentials 5 (init_store 0))
     = Ok [].
Proof.
  split.
  - eapply cached_serp_failure_empty;
      [reflexivity | reflexivity | reflexivity | left; simpl; discriminate].
  - eapply cached_serp_failure_empty;
      [reflexivity | reflexivity | reflexivity
      | right; eexists; split; reflexivity].
Defined.

Lemma extract_text_lacking_witness :
  fst (extract_text 4300
         (scripted_post
            (with_content
               (http_ok (jlit "{'status_code': 20000, 'result': []}"))
               demo_script))
         scripted_clock demo_planner (PStr (lit "https://a.example/"))
         (init_store 0))
  = Ok []
  /\ fst (extract_text 4300
            (scripted_post
               (with_content (Ok {| status_code := 404; text := [] |})
                  demo_script))
            scripted_clock demo_planner (PStr (lit "https://a.example/"))
            (init_store 0))
     = Ok [].
Proof.
  split.
  - erewrite extract_text_lacking;
      [reflexivity | vm_compute; reflexivity | apply lacking_result; reflexivity].
  - erewrite extract_text_lacking;
      [reflexivity | vm_compute; reflexivity | apply lacking_response].
Defined.

Lemma generate_posts_fallback_witness :
  fst (generate_posts 4300 (fun _ => false)
         (scripted_chat
            (with_posts (Some (lit "POST 1: Hello POST 2: World"))
               demo_script))
         demo_planner (lit "Bar Roma") (lit "Caffetteria") demo_topic []
         (PStr (lit "Sintesi")) 2 (init_store 0))
  = Ok (PList [PStr (lit "Hello"); PStr (lit "World")]).
Proof.
  destruct (generate_posts_fallback 4300 (fun _ => false)
              (scripted_chat
                 (with_posts (Some (lit "POST 1: Hello POST 2: World"))
                    demo_script))
              demo_planner (lit "Bar Roma") (lit "Caffetteria") demo_topic []
              (PStr (lit "Sintesi")) 2 (init_store 0)
              (content := lit "POST 1: Hello POST 2: World") (w := 1)
              eq_refl) as (Hsplit & _ & _ & _).
  exact (Hsplit JSONDecodeError eq_refl).
Defined.

Lemma generate_posts_well_formed_witness :
  fst (generate_posts 4300 (fun _ => false)
         (scripted_chat
            (with_posts (Some (jlit "{'posts': ['a','b']}")) demo_script))
         demo_planner (lit "Bar Roma") (lit "Caffetteria") demo_topic []
         (PStr (lit "Sintesi")) 2 (init_store 0))
  = Ok (PList [PStr (lit "a"); PStr (lit "b")]).
Proof.
  apply generate_posts_well_formed with (w := 1); reflexivity.
Defined.

Lemma generate_posts_no_posts_key_witness :
  fst (generate_posts 4300 (fun _ => false)
         (scripted_chat
            (with_posts (Some (jlit "{'testi': ['POST 1: a POST 2: b']}"))
               demo_script))
         demo_planner (lit "Bar Roma") (lit "Caffetteria") demo_topic []
         (PStr (lit "Sintesi")) 2 (init_store 0))
  = Ok (PList []).
Proof.
  eapply generate_posts_no_posts_key with (w := 1);
    [reflexivity | vm_compute; reflexivity | reflexivity].
Defined.

Lemma extract_text_length_witness :
  fst (extract_text 4300 (scripted_post demo_script) scripted_clock
         demo_planner (PStr (lit "https://a.example/")) (init_store 0))
  = Ok (lit "Tostatura lenta in piccoli lotti ")
  /\ length (lit "Tostatura lenta in piccoli lotti ") <= 4000.
Proof.
  split; [vm_compute; reflexivity|].
  eapply extract_text_length
    with (int_max_str_digits := 4300)
         (requests_post := scripted_post demo_script)
         (clock := scripted_clock) (self := demo_planner)
         (url := PStr (lit "https://a.example/")) (st := init_store 0).
  vm_compute; reflexivity.
Defined.


Lemma topics_not_blank_witness :
  parse_topics (topic_input lines_form)
  = map strip (filter (fun l => negb (forallb isspace l)) demo_lines)
  /\ map strip (filter (fun l => negb (forallb isspace l)) demo_lines)
     = [demo_topic; lit "pasticceria"; demo_topic].
Proof.
  split; [|vm_compute; reflexivity].
  apply (proj1 (proj2 (proj2
           (topics_not_blank 4300 (fun _ => false)
              (fun _ => demo_credentials) (lit "login") (lit "secret")
              (scripted_post demo_script) (scripted_chat demo_script)
              scripted_clock lines_form))));
    [reflexivity|].
  repeat constructor; intros H; vm_compute in H;
    repeat (destruct H as [H|H]; [discriminate H|]); exact H.
Defined.

(** The scenario of the specification: one topic, two posts, a generic web
    query. *)
Lemma plan_rows_shape_witness :
  fst (plan_rows 4300 (fun _ => false) (fun _ => demo_credentials)
         (lit "login") (lit "secret") (scripted_post demo_script)
         (scripted_chat demo_script) scripted_clock demo_form (init_store 0))
  = Ok [plan_row demo_topic (lit "https://a.example/, https://b.example/")
          (lit "Primo post");
        plan_row demo_topic (lit "https://a.example/, https://b.example/")
          (lit "Secondo post")]
  /\ Forall (fun r => data_pubblicazione r = [] /\ immagine r = []
                      /\ In (argomento r) (parse_topics (topic_input demo_form)))
       [plan_row demo_topic (lit "https://a.example/, https://b.example/")
          (lit "Primo post");
        plan_row demo_topic (lit "https://a.example/, https://b.example/")
          (lit "Secondo post")].
Proof.
  split; [vm_compute; reflexivity|].
  eapply (proj1 (plan_rows_shape 4300 (fun _ => false)
                   (fun _ => demo_credentials) (lit "login") (lit "secret")
                   (scripted_post demo_script) (scripted_chat demo_script)
                   scripted_clock demo_form))
    with (st := init_store 0).
  vm_compute; reflexivity.
Defined.

(** ** The caches, the calls and the gate at the scripted world *)

(** The search of [demo_topic] is answered from the cache 2999 seconds
    later. *)
Lemma cached_serp_reuses_result_witness :
  cached_serp 4300 (scripted_post demo_script) scripted_clock demo_topic
    demo_credentials 5
    {| world := 3000;
       serp_cache :=
         serp_cache
           (snd (cached_serp 4300 (scripted_post demo_script) scripted_clock
                   demo_topic demo_credentials 5 (init_store 0)));
       content_cache := [] |}
  = (Ok [demo_organic "https://a.example/"; demo_organic "https://b.example/"],
     {| world := 3000;
        serp_cache :=
          serp_cache
            (snd (cached_serp 4300 (scripted_post demo_script) scripted_clock
                    demo_topic demo_credentials 5 (init_store 0)));
        content_cache := [] |}).
Proof.
  eapply cached_serp_reuses_result
    with (st := init_store 0)
         (st' := snd (cached_serp 4300 (scripted_post demo_script)
                        scripted_clock demo_topic demo_credentials 5
                        (init_store 0)));
    [reflexivity | vm_compute; reflexivity | reflexivity
    | vm_compute; reflexivity].
Defined.

(** The API answers 503 once; the empty list is what the next call gets. *)
Lemma cached_serp_failure_is_cached_witness :
  cached_serp 4300
    (scripted_post
       (with_serp (Ok {| status_code := 503; text := [] |}) demo_script))
    scripted_clock demo_topic demo_credentials 5
    (snd (cached_serp 4300
            (scripted_post
               (with_serp (Ok {| status_code := 503; text := [] |})
                  demo_script))
            scripted_clock demo_topic demo_credentials 5 (init_store 0)))
  = (Ok [],
     snd (cached_serp 4300
            (scripted_post
               (with_serp (Ok {| status_code := 503; text := [] |})
                  demo_script))
            scripted_clock demo_topic demo_credentials 5 (init_store 0))).
Proof.
  eapply cached_serp_failure_is_cached
    with (st := init_store 0) (w := 1)
         (r := {| status_code := 503; text := [] |});
    [reflexivity | reflexivity | reflexivity | simpl; discriminate
    | reflexivity | vm_compute; reflexivity].
Defined.

(** The request fails: nothing is stored. *)
Lemma cached_call_raise_not_stored_witness :
  serp_cache
    (snd (cached_serp 4300
            (scripted_post (with_serp (Raise RequestException) demo_script))
            scripted_clock demo_topic demo_credentials 5 (init_store 0)))
  = serp_cache (init_store 0)
  /\ content_cache
       (snd (cached_serp 4300
               (scripted_post
                  (with_serp (Raise RequestException) demo_script))
               scripted_clock demo_topic demo_credentials 5 (init_store 0)))
     = content_cache (init_store 0).
Proof.
  apply (proj1 (cached_call_raise_not_stored 4300
                  (scripted_post
                     (with_serp (Raise RequestException) demo_script))
                  scripted_clock demo_topic demo_credentials 5 PNone
                  (init_store 0))
           RequestException).
  vm_compute; reflexivity.
Defined.

(** 3600 seconds after the value was stored the API is asked again. *)
Lemma cached_serp_expires_witness :
  fst (cached_serp 4300 (scripted_post demo_script) scripted_clock demo_topic
         demo_credentials 5
         {| world := 3601;
            serp_cache :=
              serp_cache
                (snd (cached_serp 4300 (scripted_post demo_script)
                        scripted_clock demo_topic demo_credentials 5
                        (init_store 0)));
            content_cache := [] |})
  = serp_of_response 4300 {| status_code := 200; text := demo_serp_body |} 5.
Proof.
  eapply cached_serp_expires
    with (st := init_store 0)
         (st' := snd (cached_serp 4300 (scripted_post demo_script)
                        scripted_clock demo_topic demo_credentials 5
                        (init_store 0)))
         (w := 3602);
    [reflexivity | vm_compute; reflexivity | reflexivity
    | vm_compute; discriminate | reflexivity].
Defined.

(** The entry of [demo_topic] does not answer for another keyword. *)
Lemma cached_serp_keys_separate_witness :
  cache_hit serp_key_eqb 3600 1 (lit "pasticceria", demo_credentials, 5%Z)
    (serp_cache
       (snd (cached_serp 4300 (scripted_post demo_script) scripted_clock
               demo_topic demo_credentials 5 (init_store 0))))
  = cache_hit serp_key_eqb 3600 1 (lit "pasticceria", demo_credentials, 5%Z)
      (serp_cache (init_store 0)).
Proof.
  eapply cached_serp_keys_separate
    with (int_max_str_digits := 4300)
         (requests_post := scripted_post demo_script)
         (clock := scripted_clock) (keyword := demo_topic)
         (creds := demo_credentials) (depth := 5%Z) (st := init_store 0);
    [reflexivity | vm_compute; reflexivity | vm_compute; discriminate].
Defined.

(** A URL with a lone surrogate, a status 404, a page of HTML under status
    200, and a failed request. *)
Lemma extract_text_http_witness :
  extract_text 4300
    (scripted_post
       (with_content (Ok {| status_code := 404; text := [] |}) demo_script))
    scripted_clock demo_planner surrogate_url (init_store 0)
  = (Raise UnicodeEncodeError, init_store 0)
  /\ fst (extract_text 4300
            (scripted_post
               (with_content (Ok {| status_code := 404; text := [] |})
                  demo_script))
            scripted_clock demo_planner (PStr (lit "https://a.example/"))
            (init_store 0))
     = Ok []
  /\ fst (extract_text 4300
            (scripted_post
               (with_content (http_ok (lit "<html>")) demo_script))
            scripted_clock demo_planner (PStr (lit "https://a.example/"))
            (init_store 0))
     = Raise JSONDecodeError
  /\ fst (extract_text 4300
            (scripted_post
               (with_content (Raise RequestException) demo_script))
            scripted_clock demo_planner (PStr (lit "https://a.example/"))
            (init_store 0))
     = Raise RequestException.
Proof.
  split; [|split; [|split]].
  - apply (proj1 (@extract_text_http 4300 nat
                    (scripted_post
                       (with_content
                          (Ok {| status_code := 404; text := [] |})
                          demo_script))
                    scripted_clock demo_planner surrogate_url
                    (init_store 0))).
    reflexivity.
  - eapply (proj1 (proj2 (@extract_text_http 4300 nat
                            (scripted_post
                               (with_content
                                  (Ok {| status_code := 404; text := [] |})
                                  demo_script))
                            scripted_clock demo_planner
                            (PStr (lit "https://a.example/")) (init_store 0))
                     eq_refl eq_refl));
      [reflexivity | simpl; discriminate].
  - eapply (proj1 (proj2 (@extract_text_http 4300 nat
                            (scripted_post
                               (with_content (http_ok (lit "<html>"))
                                  demo_script))
                            scripted_clock demo_planner
                            (PStr (lit "https://a.example/")) (init_store 0))
                     eq_refl eq_refl));
      [reflexivity | reflexivity | vm_compute; reflexivity].
  - eapply (proj2 (proj2 (@extract_text_http 4300 nat
                            (scripted_post
                               (with_content (Raise RequestException)
                                  demo_script))
                            scripted_clock demo_planner
                            (PStr (lit "https://a.example/")) (init_store 0))
                     eq_refl eq_refl));
      reflexivity.
Defined.

(** The text of a page is answered from the cache 2999 seconds later. *)
Lemma extract_text_reuses_result_witness :
  extract_text 4300 (scripted_post demo_script) scripted_clock demo_planner
    (PStr (lit "https://a.example/"))
    {| world := 3000;
       serp_cache := [];
       content_cache :=
         content_cache
           (snd (extract_text 4300 (scripted_post demo_script)
                   scripted_clock demo_planner
                   (PStr (lit "https://a.example/")) (init_store 0))) |}
  = (Ok (lit "Tostatura lenta in piccoli lotti "),
     {| world := 3000;
        serp_cache := [];
        content_cache :=
          content_cache
            (snd (extract_text 4300 (scripted_post demo_script)
                    scripted_clock demo_planner
                    (PStr (lit "https://a.example/")) (init_store 0))) |}).
Proof.
  eapply extract_text_reuses_result
    with (st := init_store 0)
         (st' := snd (extract_text 4300 (scripted_post demo_script)
                        scripted_clock demo_planner
                        (PStr (lit "https://a.example/")) (init_store 0)));
    [reflexivity | vm_compute; reflexivity | reflexivity
    | vm_compute; reflexivity].
Defined.

(** The page of [demo_content_body]: two fragments kept, the empty text and
    the number passed over. *)
Lemma extract_text_concatenates_witness :
  lit "Tostatura lenta in piccoli lotti "
  = firstn 4000 (spaced (page_fragments demo_main_topic)).
Proof.
  eapply extract_text_concatenates
    with (d := demo_content_data) (res0 := demo_content_result)
         (item0 := demo_content_item) (page := demo_page_content)
         (rest := []) (rest' := []);
    vm_compute; reflexivity.
Defined.

(** The model returns a JSON array: it parses, it is no object, and the text
    goes to the splitter. *)
Lemma generate_posts_outcomes_witness :
  (exists d,
     json_loads 4300 (lit "[1, 2]") = Ok (PDict d)
     /\ fst (generate_posts 4300 (fun _ => false)
               (scripted_chat (with_posts (Some (lit "[1, 2]")) demo_script))
               demo_planner (lit "Bar Roma") (lit "Caffetteria") demo_topic
               [] (PStr (lit "Sintesi")) 2 (init_store 0))
        = Ok (dict_get_or (lit "posts") d (PList [])))
  \/ ((forall d, json_loads 4300 (lit "[1, 2]") <> Ok (PDict d))
      /\ fst (generate_posts 4300 (fun _ => false)
                (scripted_chat (with_posts (Some (lit "[1, 2]")) demo_script))
                demo_planner (lit "Bar Roma") (lit "Caffetteria") demo_topic
                [] (PStr (lit "Sintesi")) 2 (init_store 0))
         = Ok (PList (map PStr
                        (stripped_parts
                           (re_split (post_re (fun _ => false))
                              (lit "[1, 2]")))))).
Proof.
  exact (generate_posts_outcomes 4300 (fun _ => false)
           (scripted_chat (with_posts (Some (lit "[1, 2]")) demo_script))
           demo_planner (lit "Bar Roma") (lit "Caffetteria") demo_topic []
           (PStr (lit "Sintesi")) 2 (init_store 0)
           (c := Some (lit "[1, 2]")) (w := 1) eq_refl).
Defined.

(** The fragment [Hello] and its substring [ell]. *)
Lemma fallback_fragments_hold_no_marker_witness :
  In (lit "Hello")
    (stripped_parts
       (re_split (post_re (fun _ => false))
          (lit "POST 1: Hello POST 2: World")))
  /\ ~ in_lang (post_re (fun _ => false)) (lit "ell").
Proof.
  split; [vm_compute; left; reflexivity|].
  apply fallback_fragments_hold_no_marker
    with (content := lit "POST 1: Hello POST 2: World")
         (fragment := lit "Hello") (a := lit "H") (b := lit "o");
    [vm_compute; left; reflexivity | reflexivity].
Defined.

(** The model returns a string under [posts]: one row per character. *)
Lemma process_topic_posts_unvalidated_witness :
  exists summary posts st2,
    generate_posts 4300 (fun _ => false)
      (scripted_chat (with_posts (Some (jlit "{'posts': 'ciao'}"))
                        demo_script))
      demo_planner (business demo_form) (sector demo_form) demo_topic
      (brief demo_form) summary (n_posts demo_form) st2
    = (Ok posts,
       snd (process_topic 4300 (fun _ => false) (scripted_post demo_script)
              (scripted_chat (with_posts (Some (jlit "{'posts': 'ciao'}"))
                                demo_script))
              scripted_clock demo_planner demo_form [] demo_topic
              (init_store 0)))
    /\ match posts with
       | PList l => 4 = 0 + length l
       | PStr s => 4 = 0 + length s
       | PDict d => 4 = 0 + length d
       | _ => False
       end.
Proof.
  apply (process_topic_posts_unvalidated 4300 (fun _ => false)
           (scripted_post demo_script)
           (scripted_chat (with_posts (Some (jlit "{'posts': 'ciao'}"))
                             demo_script))
           scripted_clock demo_planner demo_form []
           (rows' := [plan_row demo_topic
                        (lit "https://a.example/, https://b.example/")
                        (lit "c");
                      plan_row demo_topic
                        (lit "https://a.example/, https://b.example/")
                        (lit "i");
                      plan_row demo_topic
                        (lit "https://a.example/, https://b.example/")
                        (lit "a");
                      plan_row demo_topic
                        (lit "https://a.example/, https://b.example/")
                        (lit "o")])
           demo_topic (init_store 0)).
  vm_compute; reflexivity.
Defined.

Lemma plan_rows_blank_input_witness :
  plan_rows 4300 (fun _ => false) (fun _ => demo_credentials) (lit "login")
    (lit "secret") (scripted_post demo_script) (scripted_chat demo_script)
    scripted_clock blank_form (init_store 0)
  = (Raise StopException, init_store 0).
Proof.
  apply plan_rows_blank_input.
  vm_compute; repeat constructor.
Defined.

Lemma plan_rows_grouped_by_topic_witness :
  exists groups,
    [plan_row demo_topic (lit "https://a.example/, https://b.example/")
       (lit "Primo post");
     plan_row demo_topic (lit "https://a.example/, https://b.example/")
       (lit "Secondo post");
     plan_row (lit "pasticceria")
       (lit "https://a.example/, https://b.example/") (lit "Primo post");
     plan_row (lit "pasticceria")
       (lit "https://a.example/, https://b.example/") (lit "Secondo post");
     plan_row demo_topic (lit "https://a.example/, https://b.example/")
       (lit "Primo post");
     plan_row demo_topic (lit "https://a.example/, https://b.example/")
       (lit "Secondo post")]
    = concat groups
    /\ Forall2 (fun t g => Forall (fun r => argomento r = t) g)
         (map strip (filter (fun l => negb (forallb isspace l)) demo_lines))
         groups.
Proof.
  eapply (@plan_rows_grouped_by_topic 4300 (fun _ => false)
            (fun _ => demo_credentials) (lit "login") (lit "secret") nat
            (scripted_post demo_script) (scripted_chat demo_script)
            scripted_clock lines_form demo_lines (init_store 0));
    [reflexivity | | vm_compute; reflexivity].
  repeat constructor; intros H; vm_compute in H;
    repeat (destruct H as [H|H]; [discriminate H|]); exact H.
Defined.

(** One topic: at most eight calls. *)
Lemma plan_rows_call_bound_witness :
  exists new,
    world (snd (plan_rows 4300 (fun _ => false) (fun _ => demo_credentials)
                  (lit "login") (lit "secret") (logged_post demo_script)
                  (logged_chat demo_script) logged_clock demo_form
                  (init_store [])))
    = [] ++ new
    /\ length new <= 8 * length (parse_topics (topic_input demo_form)).
Proof.
  apply (@plan_rows_call_bound 4300 (fun _ => false)
           (fun _ => demo_credentials) (lit "login") (lit "secret")
           (list call) (logged_post demo_script) (logged_chat demo_script)
           logged_clock (fun w => w) demo_form (init_store [])).
  - split; intros; reflexivity.
  - apply serp_cache_ok_init.
Defined.

Lemma plan_rows_requests_witness :
  exists new,
    world (snd (plan_rows 4300 (fun _ => false) (fun _ => demo_credentials)
                  (lit "login") (lit "secret") (logged_post demo_script)
                  (logged_chat demo_script) logged_clock demo_form
                  (init_store [])))
    = [] ++ new
    /\ Forall (fun c => exists t,
                 In t (parse_topics (topic_input demo_form))
                 /\ topic_call demo_credentials demo_form t c)
         new.
Proof.
  apply (@plan_rows_requests 4300 (fun _ => false)
           (fun _ => demo_credentials) (lit "login") (lit "secret")
           (list call) (logged_post demo_script) (logged_chat demo_script)
           logged_clock (fun w => w) demo_form (init_store [])).
  - split; intros; reflexivity.
  - apply serp_cache_ok_init.
Defined.

Lemma search_cache_stays_good_witness :
  Forall (fun e : serp_key * (list pyval * Z) =>
            serp_good (snd (fst e)) (fst (snd e)))
    (serp_cache
       (snd (plan_rows 4300 (fun _ => false) (fun _ => demo_credentials)
               (lit "login") (lit "secret") (scripted_post demo_script)
               (scripted_chat demo_script) scripted_clock demo_form
               (init_store 0)))).
Proof.
  apply (proj2 (@search_cache_stays_good 4300 (fun _ => false)
                  (fun _ => demo_credentials) (lit "login") (lit "secret")
                  nat (scripted_post demo_script) (scripted_chat demo_script)
                  scripted_clock demo_form 0 (init_store 0))).
  constructor.
Defined.

(** A first visit with a wrong password and the form submitted. *)
Lemma gate_blocks_unauthenticated_witness :
  snd (main 4300 (fun _ => false) (fun _ => demo_credentials) (lit "login")
         (lit "secret") (scripted_post demo_script)
         (scripted_chat demo_script) scripted_clock (lit "segreto") []
         (demo_page "sbagliata" true true) (init_store 0))
  = init_store 0
  /\ (snd (fst (main 4300 (fun _ => false) (fun _ => demo_credentials)
                  (lit "login") (lit "secret") (scripted_post demo_script)
                  (scripted_chat demo_script) scripted_clock (lit "segreto")
                  [] (demo_page "sbagliata" true true) (init_store 0)))
      = Rerun
      \/ exists wrong,
           snd (fst (main 4300 (fun _ => false) (fun _ => demo_credentials)
                       (lit "login") (lit "secret")
                       (scripted_post demo_script)
                       (scripted_chat demo_script) scripted_clock
                       (lit "segreto") [] (demo_page "sbagliata" true true)
                       (init_store 0)))
           = AskPassword wrong).
Proof.
  apply gate_blocks_unauthenticated; reflexivity.
Defined.

(** The right password, entered with the button. *)
Lemma gate_opens_on_password_only_witness :
  is_authenticated
    (fst (fst (main 4300 (fun _ => false) (fun _ => demo_credentials)
                 (lit "login") (lit "secret") (scripted_post demo_script)
                 (scripted_chat demo_script) scripted_clock (lit "segreto")
                 [] (demo_page "segreto" true false) (init_store 0))))
  = true.
Proof.
  apply (proj2 (@gate_opens_on_password_only 4300 (fun _ => false)
                  (fun _ => demo_credentials) (lit "login") (lit "secret")
                  nat (scripted_post demo_script) (scripted_chat demo_script)
                  scripted_clock (lit "segreto") []
                  (demo_page "segreto" true false) (init_store 0) eq_refl)).
  split; reflexivity.
Defined.

(** Three tries: no button, a wrong password, the right password typed but
    not entered. *)
Lemma gate_stays_closed_witness :
  is_authenticated
    (fst (runs 4300 (fun _ => false) (fun _ => demo_credentials)
            (lit "login") (lit "secret") (scripted_post demo_script)
            (scripted_chat demo_script) scripted_clock (lit "segreto") []
            [demo_page "" false true; demo_page "sbagliata" true true;
             demo_page "segreto" false true]
            (init_store 0)))
  = false
  /\ snd (runs 4300 (fun _ => false) (fun _ => demo_credentials)
            (lit "login") (lit "secret") (scripted_post demo_script)
            (scripted_chat demo_script) scripted_clock (lit "segreto") []
            [demo_page "" false true; demo_page "sbagliata" true true;
             demo_page "segreto" false true]
            (init_store 0))
     = init_store 0.
Proof.
  apply gate_stays_closed; [reflexivity|].
  repeat constructor; intros [He Hp]; vm_compute in He, Hp; discriminate.
Defined.

(** An authenticated session stays so, whatever is typed at the gate. *)
Lemma gate_stays_open_witness :
  fst (runs 4300 (fun _ => false) (fun _ => demo_credentials) (lit "login")
         (lit "secret") (scripted_post demo_script)
         (scripted_chat demo_script) scripted_clock (lit "segreto")
         [(lit "authenticated", PBool true)]
         [demo_page "sbagliata" true false; demo_page "" false true]
         (init_store 0))
  = [(lit "authenticated", PBool true)].
Proof.
  apply gate_stays_open; reflexivity.
Defined.
